(** * hbnssi-timings: the HBN-SSI dataset fetcher

    A shallow embedding of [data_fetcher/data_fetcher.py] and the properties
    of its fetch orchestration.

    The Python code is sequential and effectful: it calls nilearn's
    [_get_dataset_dir], [_fetch_files] and [csv_to_array], builds
    [pathlib.Path] values, formats strings with [str.format] and creates
    directories with [Path.mkdir].  The embedding keeps that shape:

    - Python exceptions are values of [Exn]; a computation is a function
      [World -> World * (Exn + A)] (state passing plus an error result);
    - the nilearn helpers are not part of the repository, they are the
      fields of the class [Externals] and every theorem holds for all of them;
    - the world holds the file system and the trace of calls made to the
      outside (with their outcomes), so that "what was requested, and in which
      order" is a statement about the trace;
    - [pathlib] and [str.format] are modelled on strings the way CPython
      computes them. *)

From Stdlib Require Import ZArith Ascii String DecimalString PrimFloat.
From stdpp Require Import base list strings gmap.

Local Open Scope string_scope.
Local Open Scope list_scope.

(** ** Python exceptions *)

Inductive Exn : Type :=
| IndexError            (* [a[0]] on an empty selection, or a replacement index out of range *)
| KeyError              (* a named replacement field in [str.format] *)
| ValueError            (* a malformed format string *)
| FormatUnsupported     (* a replacement field outside the fragment of [str.format] modelled here *)
| FileExistsError
| FileNotFoundError
| NotADirectoryError
| External (msg : string). (* anything raised inside a nilearn helper *)

#[global] Instance Exn_eq_dec : EqDecision Exn.
Proof. solve_decision. Defined.

(** ** Strings: [str.split], [str.join], [str.lstrip], [str.format] *)

Module Str.

(** [s.split(sep)] for a one-character separator. *)
Fixpoint split (sep : ascii) (s : string) : list string :=
  match s with
  | EmptyString => [EmptyString]
  | String c r =>
      if Ascii.eqb c sep then EmptyString :: split sep r
      else match split sep r with
           | [] => [String c EmptyString]
           | x :: xs => String c x :: xs
           end
  end.

(** [sep.join(l)]. *)
Fixpoint join (sep : string) (l : list string) : string :=
  match l with
  | [] => ""
  | [x] => x
  | x :: xs => x +:+ sep +:+ join sep xs
  end.

(** [s.lstrip(c)], together with the number of characters removed. *)
Fixpoint lstrip (c : ascii) (s : string) : nat * string :=
  match s with
  | String a r => if Ascii.eqb a c then let '(n, t) := lstrip c r in (S n, t) else (0, s)
  | EmptyString => (0, s)
  end.

Definition startswith (c : ascii) (s : string) : bool :=
  match s with
  | String a _ => Ascii.eqb a c
  | EmptyString => false
  end.

Fixpoint endswith (c : ascii) (s : string) : bool :=
  match s with
  | EmptyString => false
  | String a EmptyString => Ascii.eqb a c
  | String _ r => endswith c r
  end.

Fixpoint contains (c : ascii) (s : string) : bool :=
  match s with
  | EmptyString => false
  | String a r => Ascii.eqb a c || contains c r
  end.

(** *** [template.format(arg)] with one positional argument.

    The fragment modelled: literal text, the escapes [{{] and [}}], the
    automatic field [{}], the numbered fields [{0}], [{1}], ... and plain
    named fields.  Python numbers automatic fields from 0 and refuses to mix
    automatic and numbered fields; with a single positional argument every
    index other than 0 is out of range and every name is a missing key.
    Fields are processed from left to right and the first offending one
    raises.  Conversions, format specifications, attribute and item access
    are outside the fragment. *)

Inductive Numbering := Unset | Automatic (next : nat) | Manual.

Definition is_digit (c : ascii) : bool :=
  let n := nat_of_ascii c in (48 <=? n)%nat && (n <=? 57)%nat.

Fixpoint all_digits (s : string) : bool :=
  match s with
  | EmptyString => true
  | String c r => is_digit c && all_digits r
  end.

Fixpoint all_zero (s : string) : bool :=
  match s with
  | EmptyString => true
  | String c r => Ascii.eqb c "0" && all_zero r
  end.

Fixpoint identifier_like (s : string) : bool :=
  match s with
  | EmptyString => true
  | String c r =>
      negb (Ascii.eqb c "{" || Ascii.eqb c "!" || Ascii.eqb c ":"
            || Ascii.eqb c "." || Ascii.eqb c "[")
      && identifier_like r
  end.

(** What one replacement field does: the next numbering state, or the
    exception it raises. *)
Definition use_field (f : string) (st : Numbering) : Exn + Numbering :=
  match f with
  | EmptyString =>
      match st with
      | Unset => inr (Automatic 1)
      | Automatic 0 => inr (Automatic 1)
      | Automatic (S _) => inl IndexError
      | Manual => inl ValueError
      end
  | _ =>
      if all_digits f then
        match st with
        | Automatic _ => inl ValueError
        | _ => if all_zero f then inr Manual else inl IndexError
        end
      else if identifier_like f then inl KeyError
    else inl FormatUnsupported
  end.

Definition prepend (s : string) (r : Exn + string) : Exn + string :=
  match r with
  | inr t => inr (s +:+ t)
  | inl e => inl e
  end.

(** The scanner reads the template one character at a time. *)
Inductive Mode :=
| Text                    (* in literal text *)
| Opened                  (* just read an opening brace *)
| InField (f : string)    (* inside a replacement field, [f] read so far *)
| Closed.                 (* just read a closing brace in literal text *)

Fixpoint format_from (tpl : string) (m : Mode) (st : Numbering) (arg : string)
  : Exn + string :=
  match tpl with
  | EmptyString =>
      match m with
      | Text => inr ""
      | _ => inl ValueError
      end
  | String c r =>
      match m with
      | Text =>
          if Ascii.eqb c "{" then format_from r Opened st arg
          else if Ascii.eqb c "}" then format_from r Closed st arg
          else prepend (String c EmptyString) (format_from r Text st arg)
      | Opened =>
          if Ascii.eqb c "{" then prepend "{" (format_from r Text st arg)
          else if Ascii.eqb c "}" then
            match use_field "" st with
            | inl e => inl e
            | inr st' => prepend arg (format_from r Text st' arg)
            end
          else format_from r (InField (String c EmptyString)) st arg
      | InField f =>
          if Ascii.eqb c "}" then
            match use_field f st with
            | inl e => inl e
            | inr st' => prepend arg (format_from r Text st' arg)
            end
          else format_from r (InField (f +:+ String c EmptyString)) st arg
      | Closed =>
          if Ascii.eqb c "}" then prepend "}" (format_from r Text st arg)
          else inl ValueError
      end
  end.

Definition format (tpl arg : string) : Exn + string :=
  format_from tpl Text Unset arg.

End Str.

(** ** [os.path.join] and [pathlib] (POSIX flavour) *)

Module os_path.

(** [os.path.join(a, b)]: an absolute [b] replaces [a]. *)
Definition join (a b : string) : string :=
  if Str.startswith "/" b then b
  else if (String.length a =? 0)%nat || Str.endswith "/" a then a +:+ b
  else a +:+ "/" +:+ b.

End os_path.

Module pathlib.

(** A parsed path: its root (empty for a relative path, one slash, or
    exactly two slashes, which POSIX keeps apart) and its components. *)
Record PurePath : Type := { root : string; parts : list string }.

#[global] Instance PurePath_eq_dec : EqDecision PurePath.
Proof. solve_decision. Defined.

#[global] Instance PurePath_countable : Countable PurePath.
Proof.
  refine (inj_countable' (fun p => (root p, parts p))
                         (fun x => {| root := fst x; parts := snd x |}) _).
  intros []; reflexivity.
Defined.

(** [_PosixFlavour.splitroot]. *)
Definition splitroot (part : string) : string * string :=
  if Str.startswith "/" part then
    let '(n, stripped) := Str.lstrip "/" part in
    if (n =? 2)%nat then ("//", stripped) else ("/", stripped)
  else ("", part).

(** The components of a relative part: empty ones and [.] are dropped. *)
Definition kept (x : string) : bool :=
  negb (String.eqb x "") && negb (String.eqb x ".").

Definition components (rel : string) : list string :=
  List.filter kept (Str.split "/" rel).

(** [parse_parts]: arguments are read from the last one backwards, and an
    argument with a root discards everything before it. *)
Fixpoint parse_parts (args : list string) : PurePath :=
  match args with
  | [] => {| root := ""; parts := [] |}
  | a :: rest =>
      let later := parse_parts rest in
      if negb (String.eqb (root later) "") then later
      else
        let '(r, rel) := splitroot a in
        {| root := r; parts := components rel ++ parts later |}
  end.

(** [str(p)], which is also [os.fspath(p)]. *)
Definition str (p : PurePath) : string :=
  match root p, parts p with
  | EmptyString, [] => "."
  | r, ps => r +:+ Str.join "/" ps
  end.

(** What the code passes where a path is expected: a [str] or a [Path]. *)
Inductive PathLike : Type :=
| PStr (s : string)
| PPath (p : PurePath).

Definition fspath (a : PathLike) : string :=
  match a with
  | PStr s => s
  | PPath p => str p
  end.

(** The constructor [Path] applied to its arguments. *)
Definition Path (args : list PathLike) : PurePath :=
  parse_parts (map fspath args).

(** [p.parent]; the parent of a root or of [.] is itself. *)
Definition parent (p : PurePath) : PurePath :=
  {| root := root p; parts := removelast (parts p) |}.

End pathlib.
Import pathlib.

(** ** The file system and [Path.mkdir] *)

Inductive Node : Type := Dir | File.

#[global] Instance Node_eq_dec : EqDecision Node.
Proof. solve_decision. Defined.

(** The file system maps the paths that exist to what they are.  A root and
    the working directory ([parts] empty) always exist and are directories. *)
Abbreviation FS := (gmap PurePath Node).

Module posix.

Definition node_at (fs : FS) (p : PurePath) : option Node :=
  match parts p with
  | [] => Some Dir
  | _ => fs !! p
  end.

Definition is_dir (fs : FS) (p : PurePath) : bool :=
  match node_at fs p with
  | Some Dir => true
  | _ => false
  end.

(** [os.mkdir(p)]: one level, the parent must be an existing directory. *)
Definition os_mkdir (p : PurePath) (fs : FS) : FS * (Exn + unit) :=
  match node_at fs p with
  | Some _ => (fs, inl FileExistsError)
  | None =>
      match node_at fs (parent p) with
      | None => (fs, inl FileNotFoundError)
      | Some File => (fs, inl NotADirectoryError)
      | Some Dir => (<[p := Dir]> fs, inr tt)
      end
  end.

(** [Path.mkdir] as CPython writes it:
<<
    try: os.mkdir(self, mode)
    except FileNotFoundError:
        if not parents or self.parent == self: raise
        self.parent.mkdir(parents=True, exist_ok=True)
        self.mkdir(mode, parents=False, exist_ok=exist_ok)
    except OSError:
        if not exist_ok or not self.is_dir(): raise
>>
    The recursion climbs to the parent, so it is structural on the
    components read from the last one: [up] holds them reversed. *)
Definition mkdir_here (p : PurePath) (exist_ok : bool) (fs : FS) : FS * (Exn + unit) :=
  match os_mkdir p fs with
  | (fs', inr _) => (fs', inr tt)
  | (_, inl FileNotFoundError) => (fs, inl FileNotFoundError)
  | (_, inl e) => if exist_ok && is_dir fs p then (fs, inr tt) else (fs, inl e)
  end.

Fixpoint mkdir_from (r : string) (up : list string) (parents exist_ok : bool) (fs : FS)
  : FS * (Exn + unit) :=
  let p := {| root := r; parts := rev up |} in
  match os_mkdir p fs with
  | (fs', inr _) => (fs', inr tt)
  | (_, inl FileNotFoundError) =>
      match up with
      | [] => (fs, inl FileNotFoundError)
      | _ :: up' =>
          if parents then
            match mkdir_from r up' true true fs with
            | (fs1, inr _) => mkdir_here p exist_ok fs1
            | (fs1, inl e) => (fs1, inl e)
            end
          else (fs, inl FileNotFoundError)
      end
  | (_, inl e) => if exist_ok && is_dir fs p then (fs, inr tt) else (fs, inl e)
  end.

Definition mkdir (p : PurePath) (parents exist_ok : bool) (fs : FS) : FS * (Exn + unit) :=
  mkdir_from (root p) (rev (parts p)) parents exist_ok fs.

End posix.

(** ** The tables and the requests *)

(** A row of the participants file, dtype
    [('sid','U12'), ('age','<f8'), ('Gender','U4'), ('Handedness','U4')].
    The parser returns a one-dimensional array of rows, here a list; a field
    holds the text as parsed (truncated to the width of its dtype by the
    parser). *)
Record ParticipantRecord : Type := {
  p_sid : string;
  p_age : PrimFloat.float;
  p_gender : string;
  p_handedness : string
}.

(** A row of the bundled [hbnssi.csv], columns
    [sid], [raiders], [flanker], [condition], [run]. *)
Record LookupRow : Type := {
  osf_sid : string;
  osf_raiders : string;
  osf_flanker : string;
  osf_condition : string;
  osf_run : string
}.

(** One tuple [(file, url, opts)] of the list given to [_fetch_files]; [opts]
    is the dictionary literal, here always the single key [move]. *)
Record FileSpec : Type := {
  file_ : PathLike;
  file_url : string;
  file_opts : list (string * PathLike)
}.

(** A call [_fetch_files(data_dir, files, resume=..., verbose=...)].  A keyword
    argument the call site does not write is [None]: the helper then uses its
    own default. *)
Record FetchCall : Type := {
  fc_data_dir : string;
  fc_files : list FileSpec;
  kw_resume : option bool;
  kw_verbose : option Z
}.

(** What [fetch_hbnssi] returns: [Bunch(subjects=.., mask=.., task_dir=..,
    out_dir=.., mask_cache=..)]. *)
Record Bunch : Type := {
  subjects : list string;
  mask : string;
  task_dir : PurePath;
  out_dir : PurePath;
  mask_cache : PurePath
}.

(** ** The nilearn helpers

    They may read and change the file system, and may raise. *)
Class Externals : Type := {
  (** [_get_dataset_dir(dataset_name, data_dir=.., verbose=..)] *)
  nilearn_get_dataset_dir : string -> option string -> Z -> FS -> FS * (Exn + string);
  (** [_fetch_files]: the paths of the files, one per requested file *)
  nilearn_fetch_files : FetchCall -> FS -> FS * (Exn + list string);
  (** [csv_to_array] with the participants dtype *)
  csv_participants : string -> FS -> Exn + list ParticipantRecord;
  (** [csv_to_array] with the lookup-table dtype *)
  csv_osf : string -> FS -> Exn + list LookupRow;
  (** [os.path.dirname(os.path.abspath(__file__))] *)
  package_directory : string
}.

(** ** Calls to the outside, as they appear in the trace *)

Inductive Event : Type :=
| GetDatasetDir (name : string) (data_dir : option string) (verbose : Z) (out : Exn + string)
| FetchFiles (c : FetchCall) (out : Exn + list string)
| CsvParticipants (path : string) (out : Exn + list ParticipantRecord)
| CsvOsf (path : string) (out : Exn + list LookupRow)
| Mkdir (p : PurePath) (parents exist_ok : bool) (out : Exn + unit).

(** ** Computations: state, trace and exceptions *)

Record Run (A : Type) : Type := mkRun {
  fs_after : FS;
  events : list Event;
  result : Exn + A
}.
Arguments mkRun {A} _ _ _.
Arguments fs_after {A} _.
Arguments events {A} _.
Arguments result {A} _.

Definition M (A : Type) : Type := FS -> Run A.

Definition ret {A} (a : A) : M A := fun fs => mkRun fs [] (inr a).

Definition bind {A B} (m : M A) (k : A -> M B) : M B := fun fs =>
  let r := m fs in
  match result r with
  | inl e => mkRun (fs_after r) (events r) (inl e)
  | inr a =>
      let r' := k a (fs_after r) in
      mkRun (fs_after r') (events r ++ events r') (result r')
  end.

Notation "x <- m ;; k" := (bind m (fun x => k))
  (at level 100, m at next level, right associativity).

(** A pure expression that may raise. *)
Definition lift {A} (r : Exn + A) : M A := fun fs => mkRun fs [] r.

(** [a[0]] *)
Definition getitem0 {A} (a : list A) : Exn + A :=
  match a with
  | [] => inl IndexError
  | x :: _ => inr x
  end.

Section Fetcher.

Context `{Externals}.

Definition _get_dataset_dir (dataset_name : string) (data_dir : option string)
    (verbose : Z) : M string := fun fs =>
  let '(fs', out) := nilearn_get_dataset_dir dataset_name data_dir verbose fs in
  mkRun fs' [GetDatasetDir dataset_name data_dir verbose out] out.

Definition _fetch_files (data_dir : string) (files : list FileSpec)
    (resume : option bool) (verbose : option Z) : M (list string) := fun fs =>
  let c := {| fc_data_dir := data_dir; fc_files := files;
              kw_resume := resume; kw_verbose := verbose |} in
  let '(fs', out) := nilearn_fetch_files c fs in
  mkRun fs' [FetchFiles c out] out.

Definition csv_to_array_participants (path : string) : M (list ParticipantRecord) := fun fs =>
  let out := csv_participants path fs in
  mkRun fs [CsvParticipants path out] out.

Definition csv_to_array_osf (path : string) : M (list LookupRow) := fun fs =>
  let out := csv_osf path fs in
  mkRun fs [CsvOsf path out] out.

Definition Path_mkdir (p : PurePath) (parents exist_ok : bool) : M unit := fun fs =>
  let '(fs', out) := posix.mkdir p parents exist_ok fs in
  mkRun fs' [Mkdir p parents exist_ok out] out.

(** *** [_fetch_hbnssi_participants] *)

Definition _fetch_hbnssi_participants (data_dir : string) (url : option string)
    (verbose : Z) : M (list ParticipantRecord) :=
  let url := match url with None => "https://osf.io/wtvh3/download" | Some u => u end in
  let files := [ {| file_ := PStr "participants.csv"; file_url := url;
                    file_opts := [("move", PStr "participants.csv")] |} ] in
  fetched <- _fetch_files data_dir files None (Some verbose) ;;
  path_to_participants <- lift (getitem0 fetched) ;;
  participants <- csv_to_array_participants path_to_participants ;;
  ret participants.

(** *** [_fetch_hbnssi_brain_mask] *)

Definition target_fname : string :=
  "tpl-MNI152NLin2009cAsym_res-3mm_label-GM_desc-thr02_probseg.nii.gz".

Definition _fetch_hbnssi_brain_mask (data_dir : string) (url : option string)
    (verbose : Z) : M string :=
  let url := match url with None => "https://osf.io/kp6m9/download" | Some u => u end in
  let files := [ {| file_ := PStr target_fname; file_url := url;
                    file_opts := [("move", PStr target_fname)] |} ] in
  fetched <- _fetch_files data_dir files None (Some verbose) ;;
  path_to_mask <- lift (getitem0 fetched) ;;
  ret path_to_mask.

(** *** [_fetch_hbnssi_functional] *)

Definition raiders : string :=
  "sub-{0}_task-RAIDERS_space-MNI152NLin2009cAsym_desc-postproc_bold.nii.gz".
Definition flanker : string :=
  "sub-{0}_task-FLANKERTASK_space-MNI152NLin2009cAsym_desc-postproc_bold.nii.gz".
Definition conditions : string := "sub-{0}_labels.csv".
Definition runs : string := "sub-{0}_runs.csv".

(** The four lists the loop appends to. *)
Record Collected : Type := {
  align : list string;
  decode : list string;
  labels : list string;
  sessions : list string
}.

(** [osf_data[osf_data['sid'] == sid]]: the rows whose id is [sid], in
    table order. *)
Definition select_sid (osf_data : list LookupRow) (sid : string) : list LookupRow :=
  List.filter (fun row => String.eqb (osf_sid row) sid) osf_data.

(** One "Download ..." block of the loop body.  The four blocks are the same
    five statements, on a different column of the selected rows and a
    different filename template:
<<
    x_url = url.format(this_osf_id[column][0])
    x_target = Path(derivatives_dir, template.format(sid))
    x_file = [(x_target, x_url, {'move': x_target})]
    path_to_x = _fetch_files(data_dir, x_file, verbose=verbose)[0]
>>
    [resume] is in scope but the call does not mention it. *)
Definition download (column : LookupRow -> string) (template : string)
    (this_osf_id : list LookupRow) (sid : string)
    (data_dir : string) (derivatives_dir : PurePath) (url : string)
    (resume : bool) (verbose : Z) : M string :=
  key <- lift (getitem0 (map column this_osf_id)) ;;
  x_url <- lift (Str.format url key) ;;
  name <- lift (Str.format template sid) ;;
  let x_target := Path [PPath derivatives_dir; PStr name] in
  let x_file := [ {| file_ := PPath x_target; file_url := x_url;
                     file_opts := [("move", PPath x_target)] |} ] in
  fetched <- _fetch_files data_dir x_file None (Some verbose) ;;
  lift (getitem0 fetched).

(** The body of [for sid in participants['sid']]. *)
Definition loop_body (osf_data : list LookupRow)
    (data_dir : string) (derivatives_dir : PurePath) (url : string)
    (resume : bool) (verbose : Z) (sid : string) (acc : Collected) : M Collected :=
  let this_osf_id := select_sid osf_data sid in
  (* Download raiders *)
  path_to_raiders <- download osf_raiders raiders this_osf_id sid
                       data_dir derivatives_dir url resume verbose ;;
  let acc := {| align := align acc ++ [path_to_raiders]; decode := decode acc;
                labels := labels acc; sessions := sessions acc |} in
  (* Download flanker *)
  path_to_flanker <- download osf_flanker flanker this_osf_id sid
                       data_dir derivatives_dir url resume verbose ;;
  let acc := {| align := align acc; decode := decode acc ++ [path_to_flanker];
                labels := labels acc; sessions := sessions acc |} in
  (* Download condition labels *)
  path_to_labels <- download osf_condition conditions this_osf_id sid
                      data_dir derivatives_dir url resume verbose ;;
  let acc := {| align := align acc; decode := decode acc;
                labels := labels acc ++ [path_to_labels]; sessions := sessions acc |} in
  (* Download session run numbers *)
  path_to_sessions <- download osf_run runs this_osf_id sid
                        data_dir derivatives_dir url resume verbose ;;
  ret {| align := align acc; decode := decode acc;
         labels := labels acc; sessions := sessions acc ++ [path_to_sessions] |}.

Fixpoint for_sid (sids : list string) (body : string -> Collected -> M Collected)
    (acc : Collected) : M Collected :=
  match sids with
  | [] => ret acc
  | sid :: rest => acc' <- body sid acc ;; for_sid rest body acc'
  end.

Definition _fetch_hbnssi_functional (participants : list ParticipantRecord)
    (data_dir : string) (url : option string) (resume : bool) (verbose : Z)
    : M PurePath :=
  let url := match url with None => "https://osf.io/download/{}/" | Some u => u end in
  osf_data <- csv_to_array_osf (os_path.join package_directory "hbnssi.csv") ;;
  let derivatives_dir := Path [PStr data_dir; PStr "derivatives"] in
  let start := {| align := []; decode := []; labels := []; sessions := [] |} in
  _ <- for_sid (map p_sid participants)
         (loop_body osf_data data_dir derivatives_dir url resume verbose) start ;;
  ret derivatives_dir.

(** *** [fetch_hbnssi] *)

Definition fetch_hbnssi (data_dir : option string) (resume : bool) (verbose : Z)
    : M Bunch :=
  let dataset_name := "hbnssi" in
  data_dir <- _get_dataset_dir dataset_name data_dir 1 ;;
  (* Participants data *)
  participants <- _fetch_hbnssi_participants data_dir None verbose ;;
  brain_mask <- _fetch_hbnssi_brain_mask data_dir None verbose ;;
  derivatives_dir <- _fetch_hbnssi_functional participants data_dir None resume verbose ;;
  (* create out_dir *)
  _ <- Path_mkdir (Path [PStr data_dir; PStr "decoding"]) true true ;;
  let out_dir := Path [PStr data_dir; PStr "decoding"] in
  (* create mask_cache *)
  _ <- Path_mkdir (Path [PStr data_dir; PStr "mask_cache"]) true true ;;
  let mask_cache := Path [PStr data_dir; PStr "mask_cache"] in
  ret {| subjects := map p_sid participants; mask := brain_mask;
         task_dir := derivatives_dir; out_dir := out_dir;
         mask_cache := mask_cache |}.

End Fetcher.

(** ** Vocabulary of the statements *)

(** The four artifacts of a subject, in the order of the loop body. *)
Inductive Kind : Type := Raiders | Flanker | Condition | RunIndex.

#[global] Instance Kind_eq_dec : EqDecision Kind.
Proof. solve_decision. Defined.

Definition kinds : list Kind := [Raiders; Flanker; Condition; RunIndex].

Definition column (k : Kind) : LookupRow -> string :=
  match k with
  | Raiders => osf_raiders
  | Flanker => osf_flanker
  | Condition => osf_condition
  | RunIndex => osf_run
  end.

Definition template (k : Kind) : string :=
  match k with
  | Raiders => raiders
  | Flanker => flanker
  | Condition => conditions
  | RunIndex => runs
  end.

Definition suffix (k : Kind) : string :=
  match k with
  | Raiders => "_task-RAIDERS_space-MNI152NLin2009cAsym_desc-postproc_bold.nii.gz"
  | Flanker => "_task-FLANKERTASK_space-MNI152NLin2009cAsym_desc-postproc_bold.nii.gz"
  | Condition => "_labels.csv"
  | RunIndex => "_runs.csv"
  end.

(** The file name of an artifact: the template with the id substituted. *)
Definition filename (k : Kind) (sid : string) : string := "sub-" +:+ sid +:+ suffix k.

Definition derivatives (data_dir : string) : PurePath :=
  Path [PStr data_dir; PStr "derivatives"].

(** The local path of an artifact. *)
Definition derive (data_dir : string) (k : Kind) (sid : string) : PurePath :=
  Path [PPath (derivatives data_dir); PStr (filename k sid)].

(** The request of a download block for target [t] and remote location [u]. *)
Definition request (data_dir : string) (t : PurePath) (u : string) (verbose : Z) : FetchCall :=
  {| fc_data_dir := data_dir;
     fc_files := [ {| file_ := PPath t; file_url := u; file_opts := [("move", PPath t)] |} ];
     kw_resume := None;
     kw_verbose := Some verbose |}.

(** The artifacts of a list of subjects, in the order the loop visits them. *)
Definition plan (sids : list string) : list (string * Kind) :=
  flat_map (fun sid => map (fun k => (sid, k)) kinds) sids.

(** The files named by the [_fetch_files] calls of a trace. *)
Definition fetch_calls (evs : list Event) : list FetchCall :=
  flat_map (fun ev => match ev with FetchFiles c _ => [c] | _ => [] end) evs.

Definition fetch_targets (evs : list Event) : list PathLike :=
  flat_map (fun c => map file_ (fc_files c)) (fetch_calls evs).

Definition default_url : string := "https://osf.io/download/{}/".

(** ** The shape of the trace of the loop

    [Issued steps evs res] reads: working through the artifacts [steps] in
    order produced exactly the calls [evs] and ended with [res] ([None] when
    every artifact was fetched, [Some e] when [e] was raised).  Each
    constructor is one way a download block can end. *)

Definition err {A} (r : Exn + A) : option Exn :=
  match r with
  | inl e => Some e
  | inr _ => None
  end.

Section TraceShape.

Variables (osf_data : list LookupRow) (data_dir url : string) (verbose : Z).

(** The request a block prepares before it calls [_fetch_files]: the key is
    looked up first, then substituted into the URL template. *)
Definition prepared (a : string * Kind) : Exn + FetchCall :=
  match getitem0 (map (column (snd a)) (select_sid osf_data (fst a))) with
  | inl e => inl e
  | inr key =>
      match Str.format url key with
      | inl e => inl e
      | inr u => inr (request data_dir (derive data_dir (snd a) (fst a)) u verbose)
      end
  end.

Inductive Issued : list (string * Kind) -> list Event -> option Exn -> Prop :=
| Issued_all :
    Issued [] [] None
| Issued_unprepared a rest e :
    prepared a = inl e ->
    Issued (a :: rest) [] (Some e)
| Issued_failed a rest c e :
    prepared a = inr c ->
    Issued (a :: rest) [FetchFiles c (inl e)] (Some e)
| Issued_nothing a rest c :
    prepared a = inr c ->
    Issued (a :: rest) [FetchFiles c (inr [])] (Some IndexError)
| Issued_next a rest c x l evs res :
    prepared a = inr c ->
    Issued rest evs res ->
    Issued (a :: rest) (FetchFiles c (inr (x :: l)) :: evs) res.

End TraceShape.

Definition planned_targets (data_dir : string) (sids : list string) : list PathLike :=
  map (fun a => PPath (derive data_dir (snd a) (fst a))) (plan sids).

Definition lookup_path `{Externals} : string := os_path.join package_directory "hbnssi.csv".

Definition url_or_default (url : option string) : string :=
  match url with
  | None => default_url
  | Some u => u
  end.

Definition nothing_collected : Collected :=
  {| align := []; decode := []; labels := []; sessions := [] |}.

(** ** The whole of [fetch_hbnssi] *)

Definition registry_request (data_dir : string) (verbose : Z) : FetchCall :=
  {| fc_data_dir := data_dir;
     fc_files := [ {| file_ := PStr "participants.csv";
                      file_url := "https://osf.io/wtvh3/download";
                      file_opts := [("move", PStr "participants.csv")] |} ];
     kw_resume := None;
     kw_verbose := Some verbose |}.

Definition mask_request (data_dir : string) (verbose : Z) : FetchCall :=
  {| fc_data_dir := data_dir;
     fc_files := [ {| file_ := PStr target_fname;
                      file_url := "https://osf.io/kp6m9/download";
                      file_opts := [("move", PStr target_fname)] |} ];
     kw_resume := None;
     kw_verbose := Some verbose |}.

Definition decoding_dir (data_dir : string) : PurePath :=
  Path [PStr data_dir; PStr "decoding"].

Definition mask_cache_dir (data_dir : string) : PurePath :=
  Path [PStr data_dir; PStr "mask_cache"].

(** What a run of [fetch_hbnssi] that returns went through. *)
Inductive Completed `{Externals} (data_dir : option string) (resume : bool) (verbose : Z)
    (fs : FS) (b : Bunch) : Prop :=
| completed (root_dir : string) (fs1 : FS) (registry_paths : list string)
    (registry_path : string) (fs2 : FS) (participants : list ParticipantRecord)
    (mask_paths : list string) (fs3 fs4 fs5 : FS) :
    let functional := _fetch_hbnssi_functional participants root_dir None resume verbose fs3 in
    nilearn_get_dataset_dir "hbnssi" data_dir 1 fs = (fs1, inr root_dir) ->
    nilearn_fetch_files (registry_request root_dir verbose) fs1 = (fs2, inr registry_paths) ->
    getitem0 registry_paths = inr registry_path ->
    csv_participants registry_path fs2 = inr participants ->
    nilearn_fetch_files (mask_request root_dir verbose) fs2 = (fs3, inr mask_paths) ->
    getitem0 mask_paths = inr (mask b) ->
    result functional = inr (derivatives root_dir) ->
    posix.mkdir (decoding_dir root_dir) true true (fs_after functional) = (fs4, inr tt) ->
    posix.mkdir (mask_cache_dir root_dir) true true fs4 = (fs5, inr tt) ->
    events (fetch_hbnssi data_dir resume verbose fs)
    = [GetDatasetDir "hbnssi" data_dir 1 (inr root_dir);
       FetchFiles (registry_request root_dir verbose) (inr registry_paths);
       CsvParticipants registry_path (inr participants);
       FetchFiles (mask_request root_dir verbose) (inr mask_paths)]
      ++ events functional
      ++ [Mkdir (decoding_dir root_dir) true true (inr tt);
          Mkdir (mask_cache_dir root_dir) true true (inr tt)] ->
    fs_after (fetch_hbnssi data_dir resume verbose fs) = fs5 ->
    b = {| subjects := map p_sid participants;
           mask := mask b;
           task_dir := derivatives root_dir;
           out_dir := decoding_dir root_dir;
           mask_cache := mask_cache_dir root_dir |} ->
    Completed data_dir resume verbose fs b.

(** ** Directories *)

(** A path and the directories above it, nearest first; [up] holds the
    components from the last one. *)
Fixpoint lineage (r : string) (up : list string) : list PurePath :=
  {| root := r; parts := rev up |} ::
  match up with
  | [] => []
  | _ :: up' => lineage r up'
  end.

Definition ancestors_or_self (p : PurePath) : list PurePath :=
  lineage (root p) (rev (parts p)).

Definition no_file_at (fs : FS) (q : PurePath) : bool :=
  match posix.node_at fs q with
  | Some File => false
  | _ => true
  end.

(** Nothing on the way to [p] is a regular file. *)
Definition way_is_clear (fs : FS) (p : PurePath) : bool :=
  forallb (no_file_at fs) (ancestors_or_self p).

(** Every entry of the file system lies in a directory. *)
Definition well_formed (fs : FS) : Prop :=
  map_Forall (fun q _ => posix.is_dir fs (parent q) = true) fs.

(** [fs'] is [fs] with directories added. *)
Definition adds_directories (fs fs' : FS) : Prop :=
  forall q, fs' !! q = fs !! q \/ (fs !! q = None /\ fs' !! q = Some Dir).

(** The statements of [fetch_hbnssi] above the comment [# create out_dir]. *)
Definition before_directories `{Externals} (data_dir : option string) (resume : bool)
    (verbose : Z) : M (string * list ParticipantRecord * string * PurePath) :=
  data_dir <- _get_dataset_dir "hbnssi" data_dir 1 ;;
  participants <- _fetch_hbnssi_participants data_dir None verbose ;;
  brain_mask <- _fetch_hbnssi_brain_mask data_dir None verbose ;;
  derivatives_dir <- _fetch_hbnssi_functional participants data_dir None resume verbose ;;
  ret (data_dir, participants, brain_mask, derivatives_dir).

(** The statements of [fetch_hbnssi] from the comment [# create out_dir] on. *)
Definition make_directories `{Externals} (data_dir : string)
    (participants : list ParticipantRecord) (brain_mask : string)
    (derivatives_dir : PurePath) : M Bunch :=
  _ <- Path_mkdir (Path [PStr data_dir; PStr "decoding"]) true true ;;
  let out_dir := Path [PStr data_dir; PStr "decoding"] in
  _ <- Path_mkdir (Path [PStr data_dir; PStr "mask_cache"]) true true ;;
  let mask_cache := Path [PStr data_dir; PStr "mask_cache"] in
  ret {| subjects := map p_sid participants; mask := brain_mask;
         task_dir := derivatives_dir; out_dir := out_dir;
         mask_cache := mask_cache |}.

(** ** A concrete world to run the code in

    A retrieval helper that writes every requested file under [data_dir] and
    returns its path, except for the URLs listed in [down], on which it
    raises; a registry and a lookup table given as parsed rows. *)

Module Scenario.

Definition fetch (down : list string) (c : FetchCall) (fs : FS)
  : FS * (Exn + list string) :=
  if existsb (fun f => existsb (String.eqb (file_url f)) down) (fc_files c)
  then (fs, inl (External "Fetching aborted"))
  else (foldr (fun f fs' =>
                 let p := Path [PStr (fc_data_dir c); file_ f] in
                 <[p := File]> (fst (posix.mkdir (parent p) true true fs')))
              fs (fc_files c),
        inr (map (fun f => os_path.join (fc_data_dir c) (fspath (file_ f)))
                 (fc_files c))).

Definition dataset_dir (name : string) (data_dir : option string) (verbose : Z)
    (fs : FS) : FS * (Exn + string) :=
  let d := os_path.join (default "/home/user/nilearn_data" data_dir) name in
  match posix.mkdir (Path [PStr d]) true true fs with
  | (fs', inr _) => (fs', inr d)
  | (fs', inl e) => (fs', inl e)
  end.

Definition externals (registry : list ParticipantRecord) (table : list LookupRow)
    (down : list string) : Externals :=
  {| nilearn_get_dataset_dir := dataset_dir;
     nilearn_fetch_files := fetch down;
     csv_participants := fun _ _ => inr registry;
     csv_osf := fun _ _ => inr table;
     package_directory := "/site-packages/data_fetcher" |}.

Definition participant (sid : string) : ParticipantRecord :=
  {| p_sid := sid; p_age := 25%float; p_gender := "F"; p_handedness := "R" |}.

Definition row (sid : string) : LookupRow :=
  {| osf_sid := sid;
     osf_raiders := sid +:+ "r"; osf_flanker := sid +:+ "f";
     osf_condition := sid +:+ "c"; osf_run := sid +:+ "n" |}.

End Scenario.

(** The participants of the scenarios; A404 is the one no table has a row for. *)
Definition A001 : ParticipantRecord := Scenario.participant "A001".
Definition A002 : ParticipantRecord := Scenario.participant "A002".

(** What the scenario with the subjects A001 and A002 returns. *)
Definition two_subjects_bunch : Bunch :=
  {| subjects := ["A001"; "A002"];
     mask := "/data/hbnssi/" +:+ target_fname;
     task_dir := derivatives "/data/hbnssi";
     out_dir := decoding_dir "/data/hbnssi";
     mask_cache := mask_cache_dir "/data/hbnssi" |}.

(** ** Vocabulary of the further properties *)

(** The exception an outside call ended with, if it raised. *)
Definition raised_by (ev : Event) : option Exn :=
  match ev with
  | GetDatasetDir _ _ _ out => err out
  | FetchFiles _ out => err out
  | CsvParticipants _ out => err out
  | CsvOsf _ out => err out
  | Mkdir _ _ _ out => err out
  end.

(** A run stops at the first exception: every outside call but the last one
    returned; when the run raised [e], either the last call raised [e], or
    every call returned and [e] is one of the exceptions the code raises
    itself ([Local e]). *)
Definition fail_fast (Local : Exn -> Prop) {A} (r : Run A) : Prop :=
  match result r with
  | inr _ => Forall (fun ev => raised_by ev = None) (events r)
  | inl e =>
      exists evs,
        Forall (fun ev => raised_by ev = None) evs
        /\ ((events r = evs /\ Local e)
            \/ exists ev, events r = evs ++ [ev] /\ raised_by ev = Some e)
  end.

(** What the loop raises itself: [IndexError], or what [url.format] raises. *)
Definition loop_raises (url : string) (e : Exn) : Prop :=
  e = IndexError \/ exists key, Str.format url key = inl e.

(** What [fetch_hbnssi] may do between [_get_dataset_dir], which returned the
    root [dd], and the creation of the directories: the three kinds of
    request and the two parsers. *)
Definition download_event (verbose : Z) (dd : string) (ev : Event) : Prop :=
  match ev with
  | FetchFiles c _ =>
      c = registry_request dd verbose
      \/ c = mask_request dd verbose
      \/ exists osf_data a, prepared osf_data dd default_url verbose a = inr c
  | CsvParticipants _ _ => True
  | CsvOsf _ _ => True
  | GetDatasetDir _ _ _ _ => False
  | Mkdir _ _ _ _ => False
  end.

(** The same, with the two directories. *)
Definition assembler_event (verbose : Z) (dd : string) (ev : Event) : Prop :=
  match ev with
  | Mkdir p parents exist_ok _ =>
      parents = true /\ exist_ok = true /\ (p = decoding_dir dd \/ p = mask_cache_dir dd)
  | _ => download_event verbose dd ev
  end.

(** A path as [parse_parts] leaves it: the root is empty, one slash or two,
    and no component is empty, [.] or holds a separator. *)
Definition normalised (p : PurePath) : Prop :=
  (root p = "" \/ root p = "/" \/ root p = "//")
  /\ Forall (fun x => kept x = true /\ Str.contains "/" x = false) (parts p).

(** [fs'] is [fs] with directories added, all of them among [paths]. *)
Definition created_within (paths : list PurePath) (fs fs' : FS) : Prop :=
  forall q, fs' !! q = fs !! q
            \/ (fs !! q = None /\ fs' !! q = Some Dir /\ In q paths).

(** ** The script [generate_events.py]

    The script writes one events table per flanker sequence and then copies
    a table next to the images of every session.  Modelled here: the loop
    that computes the onsets, and the file names of both loops.  A row of a
    sequence file holds the columns [Stimtype], [Duration[ms]] and [Img];
    the durations are whole milliseconds, as the column is named, and the
    arithmetic is Python's on integers. *)

Module generate_events.

Record SequenceRow : Type := {
  Stimtype : string;
  Duration_ms : Z;
  Img : string
}.

Definition nostim (row : SequenceRow) : bool := String.eqb (Stimtype row) "nostim".

(** One pass of [for i in df.index], on the state [(event_onsets, run_time)]. *)
Definition onset_step (state : list Z * Z) (row : SequenceRow) : list Z * Z :=
  let '(event_onsets, run_time) := state in
  if nostim row then
    let event_onsets := event_onsets ++ [run_time] in
    let run_time := (run_time + Duration_ms row)%Z in
    (event_onsets, run_time)
  else
    let run_time := (run_time + 500)%Z in
    let event_onsets := event_onsets ++ [run_time] in
    let run_time := (run_time + Duration_ms row)%Z in
    let run_time := (run_time + 1150)%Z in
    (event_onsets, run_time).

(** The loop, from [event_onsets = []] and [run_time = 0]. *)
Definition onset_loop (rows : list SequenceRow) : list Z * Z :=
  fold_left onset_step rows ([], 0%Z).

Definition event_onsets (rows : list SequenceRow) : list Z := fst (onset_loop rows).
Definition run_time (rows : list SequenceRow) : Z := snd (onset_loop rows).

(** [str(n)] for an integer. *)
Definition str_int (n : Z) : string := NilZero.string_of_int (Z.to_int n).


(** The file read and the file written for a sequence. *)
Definition sequence_file (seq : Z) : Exn + string :=
  Str.format "flanker_sequence{}.txt" (str_int seq).



(** The copy loop, for a row of a sessions file; [subid], [sesid] and
    [fseq] stand for the text the f-strings make of the fields.
<<
    fname = f'sub-00{subid}_ses-SSV{sesid}_task-FLANKERTASK_events.tsv'
    copyfile(f'task-FLANKER{fseq}_events.tsv',
             os.path.join(data_dir, f'sub-00{subid}', f'ses-SSV{sesid}', 'func', fname))
>> *)
Definition data_dir : string := "/media/emdupre/emdupre-ext4/hbn-ssi/fmriprep".

Definition fname (subid sesid : string) : string :=
  "sub-00" +:+ subid +:+ "_ses-SSV" +:+ sesid +:+ "_task-FLANKERTASK_events.tsv".


Definition copy_target (subid sesid : string) : string :=
  os_path.join (os_path.join (os_path.join (os_path.join data_dir ("sub-00" +:+ subid))
                                           ("ses-SSV" +:+ sesid))
                             "func")
               (fname subid sesid).




End generate_events.

(** The request of a helper that fetches one named file into the root. *)
Definition one_file_request (name url data_dir : string) (verbose : Z) : FetchCall :=
  {| fc_data_dir := data_dir;
     fc_files := [ {| file_ := PStr name; file_url := url;
                      file_opts := [("move", PStr name)] |} ];
     kw_resume := None;
     kw_verbose := Some verbose |}.

(** A branch in which an exception was raised contradicts a run that returned. *)
Ltac raised := let Hd := fresh "Hd" in intros Hd; discriminate Hd.

(** * Lemmas and theorems *)

(** ** The model on small inputs, as Python evaluates them *)

Example format_default_url :
  Str.format default_url "5e8b" = inr "https://osf.io/download/5e8b/".
Proof. reflexivity. Qed.

Example format_errors :
  Str.format "{}{}" "k" = inl IndexError
  /\ Str.format "{0}{}" "k" = inl ValueError
  /\ Str.format "{}{0}" "k" = inl ValueError
  /\ Str.format "{1}" "k" = inl IndexError
  /\ Str.format "{key}" "k" = inl KeyError
  /\ Str.format "}" "k" = inl ValueError
  /\ Str.format "{" "k" = inl ValueError
  /\ Str.format "{{{0}}}{0}" "k" = inr "{k}k".
Proof. repeat split. Qed.

Example path_normalises :
  str (Path [PStr "/data//hbnssi/"; PStr "./derivatives"]) = "/data/hbnssi/derivatives"
  /\ str (Path [PStr "//data"; PStr "x"]) = "//data/x"
  /\ str (Path [PStr "///data"; PStr "x"]) = "/data/x"
  /\ str (Path [PStr "data"; PStr "/x"]) = "/x"
  /\ str (Path [PStr ""]) = "."
  /\ parent (Path [PStr "/"]) = Path [PStr "/"]
  /\ str (parent (Path [PStr "data/x"])) = "data".
Proof. repeat split. Qed.

Example join_examples :
  os_path.join "/pkg" "hbnssi.csv" = "/pkg/hbnssi.csv"
  /\ os_path.join "/pkg/" "hbnssi.csv" = "/pkg/hbnssi.csv"
  /\ os_path.join "" "hbnssi.csv" = "hbnssi.csv"
  /\ os_path.join "/pkg" "/abs" = "/abs".
Proof. repeat split. Qed.

Example mkdir_examples :
  let p := Path [PStr "/a/b/c"] in
  let made := fst (posix.mkdir p true true ∅) in
  snd (posix.mkdir p true true ∅) = inr tt
  /\ map_to_list made = [(p, Dir); (Path [PStr "/a/b"], Dir); (Path [PStr "/a"], Dir)]
  /\ snd (posix.mkdir p false true ∅) = inl FileNotFoundError
  /\ snd (posix.mkdir p true false made) = inl FileExistsError
  /\ snd (posix.mkdir p true true made) = inr tt
  /\ map_to_list (fst (posix.mkdir p true true made)) = map_to_list made
  /\ snd (posix.mkdir p true true {[ p := File ]}) = inl FileExistsError
  /\ snd (posix.mkdir p true true {[ Path [PStr "/a"] := File ]}) = inl NotADirectoryError.
Proof. vm_compute. repeat split. Qed.

(** ** Basic facts *)

Lemma format_template (k : Kind) (sid : string) :
  Str.format (template k) sid = inr (filename k sid).
Proof. destruct k; reflexivity. Qed.

Lemma run_eta {A} (r : Run A) : mkRun (fs_after r) (events r) (result r) = r.
Proof. destruct r; reflexivity. Qed.

Lemma bind_assoc {A B C} (m : M A) (f : A -> M B) (g : B -> M C) (fs : FS) :
  bind (bind m f) g fs = bind m (fun a => bind (f a) g) fs.
Proof.
  unfold bind. destruct (m fs) as [fs1 ev1 [e|a]]; simpl; [reflexivity|].
  destruct (f a fs1) as [fs2 ev2 [e|b]]; simpl; [reflexivity|].
  rewrite app_assoc. reflexivity.
Qed.

Lemma bind_ext {A B} (m : M A) (k1 k2 : A -> M B) (fs : FS) :
  (forall a fs', k1 a fs' = k2 a fs') -> bind m k1 fs = bind m k2 fs.
Proof.
  intros Hk. unfold bind. destruct (result (m fs)); [reflexivity|].
  rewrite Hk. reflexivity.
Qed.

Lemma for_sid_app (pre post : list string) body acc fs :
  for_sid (pre ++ post) body acc fs
  = bind (for_sid pre body acc) (fun acc' => for_sid post body acc') fs.
Proof.
  revert acc fs. induction pre as [|sid pre IH]; intros acc fs; simpl.
  - unfold bind, ret. simpl. destruct (for_sid post body acc fs); reflexivity.
  - rewrite bind_assoc. apply bind_ext. intros a fs'. apply IH.
Qed.

Section Runs.

Context `{Externals}.

(** A download block, step by step. *)
Lemma download_run column template rows sid data_dir dv url resume verbose fs :
  download column template rows sid data_dir dv url resume verbose fs =
  match getitem0 (map column rows) with
  | inl e => mkRun fs [] (inl e)
  | inr key =>
      match Str.format url key with
      | inl e => mkRun fs [] (inl e)
      | inr u =>
          match Str.format template sid with
          | inl e => mkRun fs [] (inl e)
          | inr name =>
              let c := request data_dir (Path [PPath dv; PStr name]) u verbose in
              let out := nilearn_fetch_files c fs in
              mkRun (fst out) [FetchFiles c (snd out)]
                (match snd out with inl e => inl e | inr l => getitem0 l end)
          end
      end
  end.
Proof.
  unfold download, bind, lift, _fetch_files, request; simpl.
  destruct (getitem0 (map column rows)) as [e|key]; simpl; [reflexivity|].
  destruct (Str.format url key) as [e|u]; simpl; [reflexivity|].
  destruct (Str.format template sid) as [e|name]; simpl; [reflexivity|].
  destruct (nilearn_fetch_files _ fs) as [fs1 [e|l]]; simpl; [reflexivity|].
  destruct (getitem0 l); reflexivity.
Qed.

End Runs.

(** ** Facts about the trace shape *)

Section Trace.

Variables (osf_data : list LookupRow) (data_dir url : string) (verbose : Z).

Local Abbreviation Issued := (Issued osf_data data_dir url verbose).
Local Abbreviation prepared := (prepared osf_data data_dir url verbose).

(** Every call of the trace is the prepared request of the artifact at the
    same position of the plan. *)
Lemma Issued_prefix steps evs res :
  Issued steps evs res ->
  exists n, n <= length steps
    /\ Forall2 (fun ev a => exists c out, ev = FetchFiles c out /\ prepared a = inr c)
               evs (firstn n steps)
    /\ (res = None -> n = length steps).
Proof.
  induction 1 as [|a rest e Ha|a rest c e Ha|a rest c Ha|a rest c x l evs res Ha _ IH].
  - exists 0. split; [|split]; [reflexivity|constructor|reflexivity].
  - exists 0. simpl. split; [|split]; [lia|constructor|discriminate].
  - exists 1. simpl. split; [|split]; [lia| |discriminate].
    constructor; [eauto|constructor].
  - exists 1. simpl. split; [|split]; [lia| |discriminate].
    constructor; [eauto|constructor].
  - destruct IH as (n & Hn & Hall & Hres). exists (S n). simpl.
    split; [|split]; [lia| |intros Hr; f_equal; auto].
    constructor; [eauto|assumption].
Qed.

(** A call that failed is the last one, and its exception is the result. *)
Lemma Issued_failure_last steps evs res :
  Issued steps evs res ->
  forall before c e after,
    evs = before ++ FetchFiles c (inl e) :: after ->
    after = [] /\ res = Some e.
Proof.
  induction 1 as [|a rest e0 Ha|a rest c0 e0 Ha|a rest c0 Ha|a rest c0 x l evs res Ha _ IH];
    intros before c e after Heq.
  - destruct before; discriminate.
  - destruct before; discriminate.
  - destruct before as [|b before]; simplify_eq/=; [done|].
    destruct before; discriminate.
  - destruct before as [|b before]; simplify_eq/=.
    destruct before; discriminate.
  - destruct before as [|b before]; simplify_eq/=. eauto.
Qed.

(** In a run that ends without an exception every call succeeded. *)
Lemma Issued_success steps evs res :
  Issued steps evs res -> res = None ->
  Forall (fun ev => exists c x l, ev = FetchFiles c (inr (x :: l))) evs.
Proof.
  induction 1; intros Hres; try discriminate; constructor; eauto.
Qed.

End Trace.

Section Loop.

Context `{Externals}.
Variables (osf_data : list LookupRow) (data_dir url : string)
          (resume : bool) (verbose : Z).

Local Abbreviation body := (loop_body osf_data data_dir (derivatives data_dir) url resume verbose).
Local Abbreviation block a :=
  (download (column (snd a)) (template (snd a)) (select_sid osf_data (fst a)) (fst a)
            data_dir (derivatives data_dir) url resume verbose).

(** One block followed by whatever comes next. *)
Lemma Issued_block {B} a rest (k : string -> M B) fs :
  (forall x fs', Issued osf_data data_dir url verbose rest
                   (events (k x fs')) (err (result (k x fs')))) ->
  Issued osf_data data_dir url verbose (a :: rest)
    (events (bind (block a) k fs)) (err (result (bind (block a) k fs))).
Proof.
  intros Hk. unfold bind. rewrite download_run, format_template.
  destruct (getitem0 (map (column (snd a)) (select_sid osf_data (fst a)))) as [e|key] eqn:Hkey;
    simpl.
  { apply Issued_unprepared. unfold prepared. rewrite Hkey. reflexivity. }
  destruct (Str.format url key) as [e|u] eqn:Hu; simpl.
  { apply Issued_unprepared. unfold prepared. rewrite Hkey, Hu. reflexivity. }
  assert (Hp : prepared osf_data data_dir url verbose a
               = inr (request data_dir (derive data_dir (snd a) (fst a)) u verbose)).
  { unfold prepared. rewrite Hkey, Hu. reflexivity. }
  fold (derive data_dir (snd a) (fst a)).
  destruct (nilearn_fetch_files _ fs) as [fs1 [e|[|x l]]]; simpl.
  - eapply Issued_failed; eassumption.
  - eapply Issued_nothing; eassumption.
  - eapply Issued_next; [eassumption|apply Hk].
Qed.

Lemma for_sid_Issued sids acc fs :
  Issued osf_data data_dir url verbose (plan sids)
    (events (for_sid sids body acc fs)) (err (result (for_sid sids body acc fs))).
Proof.
  revert acc fs. induction sids as [|sid sids IH]; intros acc fs; simpl.
  - constructor.
  - unfold loop_body at 1 3. rewrite !bind_assoc.
    apply (Issued_block (sid, Raiders)). intros x1 fs1. rewrite !bind_assoc.
    apply (Issued_block (sid, Flanker)). intros x2 fs2. rewrite !bind_assoc.
    apply (Issued_block (sid, Condition)). intros x3 fs3. rewrite !bind_assoc.
    apply (Issued_block (sid, RunIndex)). intros x4 fs4.
    unfold bind at 1 2, ret at 1 2. simpl. apply IH.
Qed.

End Loop.

Section Functional.

Context `{Externals}.

(** [_fetch_hbnssi_functional] is: load the table, then run the loop. *)
Lemma functional_run participants data_dir url resume verbose fs :
  _fetch_hbnssi_functional participants data_dir url resume verbose fs =
  match csv_osf lookup_path fs with
  | inl e => mkRun fs [CsvOsf lookup_path (inl e)] (inl e)
  | inr osf_data =>
      let r := for_sid (map p_sid participants)
                 (loop_body osf_data data_dir (derivatives data_dir)
                            (url_or_default url) resume verbose)
                 nothing_collected fs in
      mkRun (fs_after r) (CsvOsf lookup_path (inr osf_data) :: events r)
            (match result r with
             | inl e => inl e
             | inr _ => inr (derivatives data_dir)
             end)
  end.
Proof.
  unfold _fetch_hbnssi_functional, bind at 1, csv_to_array_osf. simpl.
  fold lookup_path. destruct (csv_osf lookup_path fs) as [e|osf_data]; [reflexivity|].
  unfold bind, ret. simpl.
  fold (derivatives data_dir). fold nothing_collected.
  unfold url_or_default, default_url.
  destruct url; simpl;
    match goal with |- context [result ?r] => destruct r as [fs1 evs [e|a]] end;
    simpl; rewrite ?app_nil_r; reflexivity.
Qed.

End Functional.

(** ** Consequences of the trace shape *)

Lemma prepared_inv osf_data data_dir url verbose a c :
  prepared osf_data data_dir url verbose a = inr c ->
  exists key u,
    getitem0 (map (column (snd a)) (select_sid osf_data (fst a))) = inr key
    /\ Str.format url key = inr u
    /\ c = request data_dir (derive data_dir (snd a) (fst a)) u verbose.
Proof.
  unfold prepared. intros Hp.
  destruct (getitem0 _) as [e|key] eqn:Hkey; [discriminate|].
  destruct (Str.format url key) as [e|u] eqn:Hu; [discriminate|].
  exists key, u. split; [reflexivity|]. split; [exact Hu|]. congruence.
Qed.

Lemma Issued_requests osf_data data_dir url verbose steps evs res :
  Issued osf_data data_dir url verbose steps evs res ->
  exists n, n <= length steps
    /\ Forall2 (fun c a => prepared osf_data data_dir url verbose a = inr c)
               (fetch_calls evs) (firstn n steps)
    /\ (res = None -> n = length steps).
Proof.
  intros HI. destruct (Issued_prefix _ _ _ _ _ _ _ HI) as (n & Hn & Hall & Hres).
  exists n. split; [assumption|]. split; [|assumption].
  clear Hn Hres HI. induction Hall as [|ev a evs steps' (c & out & -> & Hc) _ IH]; simpl.
  - constructor.
  - constructor; assumption.
Qed.

Lemma requests_targets osf_data data_dir url verbose calls steps :
  Forall2 (fun c a => prepared osf_data data_dir url verbose a = inr c) calls steps ->
  flat_map (fun c => map file_ (fc_files c)) calls
  = map (fun a => PPath (derive data_dir (snd a) (fst a))) steps.
Proof.
  induction 1 as [|c a calls steps Hc _ IH]; simpl; [reflexivity|].
  apply prepared_inv in Hc as (key & u & _ & _ & ->). simpl. f_equal. exact IH.
Qed.

Lemma requests_resume osf_data data_dir url verbose calls steps :
  Forall2 (fun c a => prepared osf_data data_dir url verbose a = inr c) calls steps ->
  Forall (fun c => kw_resume c = None) calls.
Proof.
  induction 1 as [|c a calls steps Hc _ IH]; constructor; [|exact IH].
  apply prepared_inv in Hc as (key & u & _ & _ & ->). reflexivity.
Qed.

Lemma plan_length sids : length (plan sids) = 4 * length sids.
Proof. induction sids as [|sid sids IH]; unfold plan in *; simpl in *; lia. Qed.

Lemma planned_targets_by_subject data_dir sids :
  map (fun a => PPath (derive data_dir (snd a) (fst a))) (plan sids)
  = flat_map (fun sid => [PPath (derive data_dir Raiders sid);
                          PPath (derive data_dir Flanker sid);
                          PPath (derive data_dir Condition sid);
                          PPath (derive data_dir RunIndex sid)]) sids.
Proof.
  unfold plan. induction sids as [|sid sids IH]; [reflexivity|].
  cbn [flat_map map kinds app]. do 4 f_equal. exact IH.
Qed.

Section FunctionalTrace.

Context `{Externals}.

(** The trace of [_fetch_hbnssi_functional]: the table is loaded once, and
  what follows are the calls of the loop. *)
Lemma functional_Issued participants data_dir url resume verbose fs :
let r := _fetch_hbnssi_functional participants data_dir url resume verbose fs in
match csv_osf lookup_path fs with
| inl e => r = mkRun fs [CsvOsf lookup_path (inl e)] (inl e)
| inr osf_data =>
    exists evs,
      events r = CsvOsf lookup_path (inr osf_data) :: evs
      /\ Issued osf_data data_dir (url_or_default url) verbose
                (plan (map p_sid participants)) evs (err (result r))
end.
Proof.
intros r. subst r. rewrite functional_run.
destruct (csv_osf lookup_path fs) as [e|osf_data]; [reflexivity|].
eexists. split; [reflexivity|]. simpl.
pose proof (for_sid_Issued osf_data data_dir (url_or_default url) resume verbose
              (map p_sid participants) nothing_collected fs) as HI.
destruct (result (for_sid _ _ _ _)); exact HI.
Qed.

Lemma functional_calls participants data_dir url resume verbose fs :
let r := _fetch_hbnssi_functional participants data_dir url resume verbose fs in
exists osf_data n,
  n <= 4 * length participants
  /\ Forall2 (fun c a => prepared osf_data data_dir (url_or_default url) verbose a = inr c)
             (fetch_calls (events r)) (firstn n (plan (map p_sid participants)))
  /\ (err (result r) = None -> n = 4 * length participants).
Proof.
intros r. pose proof (functional_Issued participants data_dir url resume verbose fs) as HF.
simpl in HF. fold r in HF.
destruct (csv_osf lookup_path fs) as [e|osf_data].
- exists [], 0. rewrite HF. simpl. split; [lia|]. split; [constructor|discriminate].
- destruct HF as (evs & Hev & HI). exists osf_data.
  apply Issued_requests in HI as (n & Hn & Hall & Hres).
  rewrite plan_length, length_map in Hn, Hres.
  exists n. rewrite Hev. simpl. auto.
Qed.

End FunctionalTrace.

(** ** The claims *)

(** C2 (the code departs from it): the claim is that every retrieval request
    carries the caller's [resume] flag.  In the code the four calls of the loop
    body are [_fetch_files(data_dir, files, verbose=verbose)]: whatever [resume]
    is, no request of [_fetch_hbnssi_functional] has a [resume] argument, so the
    helper falls back on its own default and never sees the caller's flag. *)
Theorem functional_requests_carry_no_resume `{Externals}
    (participants : list ParticipantRecord) (data_dir : string) (url : option string)
    (resume : bool) (verbose : Z) (fs : FS) :
  Forall (fun c => kw_resume c = None /\ kw_resume c <> Some resume)
    (fetch_calls (events (_fetch_hbnssi_functional participants data_dir url resume verbose fs))).
Proof.
  destruct (functional_calls participants data_dir url resume verbose fs)
    as (osf_data & n & _ & Hall & _).
  apply requests_resume in Hall. eapply Forall_impl; [exact Hall|].
  intros c Hc. simpl in Hc. rewrite Hc. split; [reflexivity|discriminate].
Qed.

(** The same at a concrete input: the caller passes [resume=False] and none of
    the eight requests says so. *)
Example resume_false_is_dropped :
  let E := Scenario.externals [A001; A002] [Scenario.row "A001"; Scenario.row "A002"] [] in
  map kw_resume
      (fetch_calls (events (@_fetch_hbnssi_functional E [A001; A002] "/data/hbnssi"
                              None false 1 ∅)))
  = repeat None 8.
Proof. vm_compute. reflexivity. Qed.


(** C9: within a subject the four requests go out in one fixed order, raiders,
    flanker, condition labels, run index, and that order is the same for every
    subject: the requests of a run are, in order, the first [n] of the list
    that gives each subject these four in turn, each built from the column of
    its own kind; a run that returns issued all of them. *)
Theorem requests_follow_kind_order `{Externals}
    (participants : list ParticipantRecord) (data_dir : string) (url : option string)
    (resume : bool) (verbose : Z) (fs : FS) :
  let r := _fetch_hbnssi_functional participants data_dir url resume verbose fs in
  exists osf_data n,
    Forall2 (fun c a => prepared osf_data data_dir (url_or_default url) verbose a = inr c)
      (fetch_calls (events r))
      (firstn n (flat_map (fun sid => [(sid, Raiders); (sid, Flanker);
                                       (sid, Condition); (sid, RunIndex)])
                          (map p_sid participants)))
    /\ fetch_targets (events r)
       = firstn n (flat_map (fun sid => [PPath (derive data_dir Raiders sid);
                                         PPath (derive data_dir Flanker sid);
                                         PPath (derive data_dir Condition sid);
                                         PPath (derive data_dir RunIndex sid)])
                            (map p_sid participants))
    /\ match result r with
       | inr _ => n = 4 * length participants
       | inl _ => n <= 4 * length participants
       end.
Proof.
  intros r.
  destruct (functional_calls participants data_dir url resume verbose fs)
    as (osf & n & Hn & Hall & Hres).
  fold r in Hall, Hres. exists osf, n. split; [exact Hall|]. split.
  - unfold fetch_targets. rewrite (requests_targets _ _ _ _ _ _ Hall).
    rewrite <- firstn_map. f_equal. apply planned_targets_by_subject.
  - destruct (result r); [exact Hn|]. apply Hres. reflexivity.
Qed.

Section Cut.

Context `{Externals}.

(** Running the function on [pre ++ post] is running it on [pre] and, when
  that returns, going on with the loop over [post] from where it stopped. *)
Lemma functional_cut pre post data_dir url resume verbose fs :
let r1 := _fetch_hbnssi_functional pre data_dir url resume verbose fs in
let r := _fetch_hbnssi_functional (pre ++ post) data_dir url resume verbose fs in
match result r1 with
| inl _ => r = r1
| inr _ =>
    exists osf_data acc,
      csv_osf lookup_path fs = inr osf_data
      /\ let r2 := for_sid (map p_sid post)
                     (loop_body osf_data data_dir (derivatives data_dir)
                                (url_or_default url) resume verbose)
                     acc (fs_after r1) in
         events r = events r1 ++ events r2
         /\ fs_after r = fs_after r2
         /\ result r = match result r2 with
                       | inl e => inl e
                       | inr _ => inr (derivatives data_dir)
                       end
end.
Proof.
intros r1 r. subst r1 r. rewrite !functional_run.
destruct (csv_osf lookup_path fs) as [e|osf_data]; [reflexivity|].
rewrite map_app, for_sid_app. unfold bind. cbn [result events fs_after].
destruct (for_sid (map p_sid pre) _ nothing_collected fs) as [fs1 ev1 [e|acc]];
  cbn [result events fs_after]; [reflexivity|].
exists osf_data, acc. split; [reflexivity|]. cbn zeta.
split; [reflexivity|]. split; reflexivity.
Qed.





End Cut.

(** C4: subjects are fetched one after the other, and a failure stops the
    run.  Take any two neighbours in the registry, [a] and the head of [post].
    If the run over the participants up to [a] raises, the run over the whole
    registry is that very run: same calls, same exception, nothing attempted
    for a later subject.  If it returns, its last four calls are the four
    successful requests for [a], and every call made for a later subject comes
    after them.  A call to the retrieval helper that raises is the last call
    of the run and its exception is the result. *)
Theorem subjects_fetched_in_turn `{Externals}
    (pre : list ParticipantRecord) (a : ParticipantRecord) (post : list ParticipantRecord)
    (data_dir : string) (url : option string) (resume : bool) (verbose : Z) (fs : FS) :
  let F ps := _fetch_hbnssi_functional ps data_dir url resume verbose fs in
  match result (F (pre ++ [a])) with
  | inl _ => F (pre ++ a :: post) = F (pre ++ [a])
  | inr _ =>
      exists evs_a rest m,
        events (F (pre ++ [a])) = events (F pre) ++ evs_a
        /\ fetch_targets evs_a = [PPath (derive data_dir Raiders (p_sid a));
                                  PPath (derive data_dir Flanker (p_sid a));
                                  PPath (derive data_dir Condition (p_sid a));
                                  PPath (derive data_dir RunIndex (p_sid a))]
        /\ Forall (fun ev => exists c x l, ev = FetchFiles c (inr (x :: l))) evs_a
        /\ events (F (pre ++ a :: post)) = events (F pre) ++ evs_a ++ rest
        /\ fetch_targets rest = firstn m (planned_targets data_dir (map p_sid post))
  end
  /\ (forall before c e after,
        events (F (pre ++ a :: post)) = before ++ FetchFiles c (inl e) :: after ->
        after = [] /\ result (F (pre ++ a :: post)) = inl e).
Proof.
  intros F. split.
  - pose proof (functional_cut (pre ++ [a]) post data_dir url resume verbose fs) as Hcut.
    cbn zeta in Hcut. rewrite <- app_assoc in Hcut. cbn [app] in Hcut.
    fold (F (pre ++ [a])) in Hcut. fold (F (pre ++ a :: post)) in Hcut.
    destruct (result (F (pre ++ [a]))) as [e|d] eqn:Hres; [exact Hcut|].
    destruct Hcut as (osf & acc & Hosf & Hev & _ & _).
    pose proof (functional_cut pre [a] data_dir url resume verbose fs) as Hcut1.
    cbn zeta in Hcut1. fold (F pre) in Hcut1. fold (F (pre ++ [a])) in Hcut1.
    destruct (result (F pre)) as [e|d0] eqn:Hpre.
    { rewrite Hcut1, Hpre in Hres. discriminate. }
    destruct Hcut1 as (osf1 & acc1 & Hosf1 & Hev1 & _ & Hres1).
    assert (osf1 = osf) as -> by congruence.
    set (ra := for_sid (map p_sid [a]) _ acc1 (fs_after (F pre))) in *.
    set (rp := for_sid (map p_sid post) _ acc (fs_after (F (pre ++ [a])))) in *.
    pose proof (for_sid_Issued osf data_dir (url_or_default url) resume verbose
                  (map p_sid [a]) acc1 (fs_after (F pre))) as Ha.
    fold ra in Ha.
    pose proof (for_sid_Issued osf data_dir (url_or_default url) resume verbose
                  (map p_sid post) acc (fs_after (F (pre ++ [a])))) as Hp.
    fold rp in Hp.
    assert (Hok : err (result ra) = None).
    { rewrite Hres in Hres1. destruct (result ra); [discriminate|reflexivity]. }
    rewrite Hok in Ha.
    exists (events ra), (events rp).
    destruct (Issued_requests _ _ _ _ _ _ _ Hp) as (m & _ & Hallp & _).
    exists m. split; [exact Hev1|]. split; [|split; [|split]].
    + destruct (Issued_requests _ _ _ _ _ _ _ Ha) as (n & _ & Halla & Hn).
      rewrite (Hn eq_refl) in Halla. rewrite firstn_all in Halla.
      unfold fetch_targets. rewrite (requests_targets _ _ _ _ _ _ Halla). reflexivity.
    + eapply Issued_success; [exact Ha|reflexivity].
    + rewrite Hev, Hev1, <- app_assoc. reflexivity.
    + unfold fetch_targets, planned_targets.
      rewrite (requests_targets _ _ _ _ _ _ Hallp). symmetry. apply firstn_map.
  - intros before c e after Heq.
    pose proof (functional_Issued (pre ++ a :: post) data_dir url resume verbose fs) as HF.
    cbn zeta in HF. fold (F (pre ++ a :: post)) in HF.
    destruct (csv_osf lookup_path fs) as [e0|osf].
    + rewrite HF in Heq. simpl in Heq.
      destruct before as [|b [|b' before]]; discriminate.
    + destruct HF as (evs & Hev & HI). rewrite Hev in Heq.
      destruct before as [|b before]; [discriminate|].
      injection Heq as _ Heq.
      destruct (Issued_failure_last _ _ _ _ _ _ _ HI _ _ _ _ Heq) as [-> Hr].
      split; [reflexivity|]. destruct (result (F (pre ++ a :: post))); simpl in Hr; congruence.
Qed.




Lemma bind_cong {A B} (m1 m2 : M A) (k1 k2 : A -> M B) (fs : FS) :
  m1 fs = m2 fs -> (forall a fs', k1 a fs' = k2 a fs') -> bind m1 k1 fs = bind m2 k2 fs.
Proof.
  intros Hm Hk. unfold bind. rewrite Hm. destruct (result (m2 fs)); [reflexivity|].
  rewrite Hk. reflexivity.
Qed.



Lemma bind_inr {A B} (m : M A) (k : A -> M B) (fs : FS) (b : B) :
  result (bind m k fs) = inr b ->
  exists a,
    result (m fs) = inr a
    /\ result (k a (fs_after (m fs))) = inr b
    /\ events (bind m k fs) = events (m fs) ++ events (k a (fs_after (m fs)))
    /\ fs_after (bind m k fs) = fs_after (k a (fs_after (m fs))).
Proof.
  unfold bind. destruct (m fs) as [fs1 ev1 [e|a]]; cbn [result events fs_after].
  - intros Hd. discriminate Hd.
  - intros Hb. exists a. auto.
Qed.

Section Assembler.

Context `{Externals}.

Lemma get_dataset_dir_inr name data_dir verbose fs dd :
result (_get_dataset_dir name data_dir verbose fs) = inr dd ->
nilearn_get_dataset_dir name data_dir verbose fs
= (fs_after (_get_dataset_dir name data_dir verbose fs), inr dd)
/\ events (_get_dataset_dir name data_dir verbose fs)
   = [GetDatasetDir name data_dir verbose (inr dd)].
Proof.
unfold _get_dataset_dir.
destruct (nilearn_get_dataset_dir name data_dir verbose fs) as [fs1 out].
cbn [result events fs_after]. intros ->. auto.
Qed.

Lemma participants_inr data_dir verbose fs ps :
result (_fetch_hbnssi_participants data_dir None verbose fs) = inr ps ->
exists paths path,
  nilearn_fetch_files (registry_request data_dir verbose) fs
  = (fs_after (_fetch_hbnssi_participants data_dir None verbose fs), inr paths)
  /\ getitem0 paths = inr path
  /\ csv_participants path (fs_after (_fetch_hbnssi_participants data_dir None verbose fs))
     = inr ps
  /\ events (_fetch_hbnssi_participants data_dir None verbose fs)
     = [FetchFiles (registry_request data_dir verbose) (inr paths);
        CsvParticipants path (inr ps)].
Proof.
unfold _fetch_hbnssi_participants, bind, _fetch_files, lift, csv_to_array_participants, ret.
fold (registry_request data_dir verbose).
destruct (nilearn_fetch_files (registry_request data_dir verbose) fs) as [fs1 [e|paths]];
  cbn [result events fs_after]; [raised|].
destruct (getitem0 paths) as [e|path] eqn:H0;
  cbn [result events fs_after]; [raised|].
destruct (csv_participants path fs1) as [e|ps'] eqn:Hcsv;
  cbn [result events fs_after]; [raised|].
intros [= <-]. exists paths, path. auto.
Qed.

Lemma brain_mask_inr data_dir verbose fs m :
result (_fetch_hbnssi_brain_mask data_dir None verbose fs) = inr m ->
exists paths,
  nilearn_fetch_files (mask_request data_dir verbose) fs
  = (fs_after (_fetch_hbnssi_brain_mask data_dir None verbose fs), inr paths)
  /\ getitem0 paths = inr m
  /\ events (_fetch_hbnssi_brain_mask data_dir None verbose fs)
     = [FetchFiles (mask_request data_dir verbose) (inr paths)].
Proof.
unfold _fetch_hbnssi_brain_mask, bind, _fetch_files, lift, ret.
fold (mask_request data_dir verbose).
destruct (nilearn_fetch_files (mask_request data_dir verbose) fs) as [fs1 [e|paths]];
  cbn [result events fs_after]; [raised|].
destruct (getitem0 paths) as [e|m'] eqn:H0;
  cbn [result events fs_after]; [raised|].
intros [= <-]. exists paths. auto.
Qed.

Lemma functional_inr participants data_dir url resume verbose fs dv :
result (_fetch_hbnssi_functional participants data_dir url resume verbose fs) = inr dv ->
dv = derivatives data_dir.
Proof.
rewrite functional_run. destruct (csv_osf lookup_path fs); [raised|].
cbn zeta. cbn [result]. destruct (result (for_sid _ _ _ _)); congruence.
Qed.

Lemma Path_mkdir_inr p parents exist_ok fs u :
result (Path_mkdir p parents exist_ok fs) = inr u ->
posix.mkdir p parents exist_ok fs = (fs_after (Path_mkdir p parents exist_ok fs), inr tt)
/\ events (Path_mkdir p parents exist_ok fs) = [Mkdir p parents exist_ok (inr tt)].
Proof.
unfold Path_mkdir. destruct (posix.mkdir p parents exist_ok fs) as [fs1 out].
cbn [result events fs_after]. intros ->. destruct u. auto.
Qed.

Lemma fetch_hbnssi_completed data_dir resume verbose fs b :
result (fetch_hbnssi data_dir resume verbose fs) = inr b ->
Completed data_dir resume verbose fs b.
Proof.
intros Hb. unfold fetch_hbnssi in Hb |- *.
apply bind_inr in Hb as (dd & Hdd & Hb & Hev1 & Hfs1).
apply get_dataset_dir_inr in Hdd as [Hdir Hevd].
apply bind_inr in Hb as (ps & Hps & Hb & Hev2 & Hfs2).
apply participants_inr in Hps as (regs & reg & Hreg & Hreg0 & Hcsv & Hevp).
apply bind_inr in Hb as (m & Hm & Hb & Hev3 & Hfs3).
apply brain_mask_inr in Hm as (masks & Hmask & Hmask0 & Hevm).
apply bind_inr in Hb as (dv & Hdv & Hb & Hev4 & Hfs4).
pose proof (functional_inr _ _ _ _ _ _ _ Hdv) as ->.
apply bind_inr in Hb as (u1 & Hu1 & Hb & Hev5 & Hfs5).
apply Path_mkdir_inr in Hu1 as [Hmk1 Hevk1].
apply bind_inr in Hb as (u2 & Hu2 & Hb & Hev6 & Hfs6).
apply Path_mkdir_inr in Hu2 as [Hmk2 Hevk2].
unfold ret in Hb. cbn [result] in Hb. injection Hb as <-.
eapply completed; [exact Hdir|exact Hreg|exact Hreg0|exact Hcsv|exact Hmask|exact Hmask0
                   |exact Hdv|exact Hmk1|exact Hmk2| | |reflexivity].
- etransitivity; [exact Hev1|].
  rewrite Hevd, Hev2, Hevp, Hev3, Hevm, Hev4, Hev5, Hevk1, Hev6, Hevk2.
  unfold ret. cbn [events]. rewrite app_nil_r. cbn [app]. reflexivity.
- etransitivity; [exact Hfs1|].
  rewrite Hfs2, Hfs3, Hfs4, Hfs5, Hfs6. reflexivity.
Qed.

End Assembler.

(** C3 as stated fails: the claim puts the mask retrieval after the
    per-subject fetch.  In a run for two subjects the mask request is the
    fourth call; the only file requested before it is the registry, and the
    eight artifacts of the subjects are all requested after it. *)
Lemma mask_is_fetched_before_the_subjects :
  let E := Scenario.externals [A001; A002] [Scenario.row "A001"; Scenario.row "A002"] [] in
  let r := @fetch_hbnssi E (Some "/data") true 1 ∅ in
  exists before mask_paths after,
    events r = before ++ FetchFiles (mask_request "/data/hbnssi" 1) (inr mask_paths) :: after
    /\ fetch_targets before = [PStr "participants.csv"]
    /\ fetch_targets after = planned_targets "/data/hbnssi" ["A001"; "A002"].
Proof.
  intros E r.
  exists (firstn 3 (events r)),
         ["/data/hbnssi/tpl-MNI152NLin2009cAsym_res-3mm_label-GM_desc-thr02_probseg.nii.gz"],
         (skipn 4 (events r)).
  vm_compute. repeat split.
Qed.

(** C3 (as the code has it): a run of [fetch_hbnssi] that returns made its
    calls in this order: the dataset directory; the registry, fetched then
    parsed; the single mask retrieval; the lookup table and the per-subject
    fetch, four successful requests per participant in registry order; the
    directory [decoding], then the directory [mask_cache]; and the result is
    packaged from what these steps returned.  The mask is retrieved before
    the per-subject fetch begins. *)
Theorem assembler_steps_in_order `{Externals}
    (data_dir : option string) (resume : bool) (verbose : Z) (fs : FS) (b : Bunch) :
  result (fetch_hbnssi data_dir resume verbose fs) = inr b ->
  exists root_dir registry_paths registry_path participants mask_paths osf_data subject_events,
    events (fetch_hbnssi data_dir resume verbose fs)
    = [GetDatasetDir "hbnssi" data_dir 1 (inr root_dir);
       FetchFiles (registry_request root_dir verbose) (inr registry_paths);
       CsvParticipants registry_path (inr participants)]
      ++ [FetchFiles (mask_request root_dir verbose) (inr mask_paths)]
      ++ (CsvOsf lookup_path (inr osf_data) :: subject_events)
      ++ [Mkdir (decoding_dir root_dir) true true (inr tt);
          Mkdir (mask_cache_dir root_dir) true true (inr tt)]
    /\ fetch_targets subject_events = planned_targets root_dir (map p_sid participants)
    /\ Forall (fun ev => exists c x l, ev = FetchFiles c (inr (x :: l))) subject_events
    /\ b = {| subjects := map p_sid participants;
              mask := mask b;
              task_dir := derivatives root_dir;
              out_dir := decoding_dir root_dir;
              mask_cache := mask_cache_dir root_dir |}.
Proof.
  intros Hb. destruct (fetch_hbnssi_completed _ _ _ _ _ Hb)
    as [root_dir fs1 regs reg fs2 ps masks fs3 fs4 fs5 functional
        _ _ _ _ _ _ Hfun _ _ Hev _ Hbunch].
  pose proof (functional_Issued ps root_dir None resume verbose fs3) as HF.
  cbn zeta in HF. fold functional in HF.
  destruct (csv_osf lookup_path fs3) as [e|osf].
  { rewrite HF in Hfun. discriminate Hfun. }
  destruct HF as (evs & Hevf & HI). rewrite Hfun in HI. cbn [err] in HI.
  exists root_dir, regs, reg, ps, masks, osf, evs.
  split; [rewrite Hev, Hevf; reflexivity|]. split; [|split].
  - destruct (Issued_requests _ _ _ _ _ _ _ HI) as (n & _ & Hall & Hn).
    rewrite (Hn eq_refl), firstn_all in Hall.
    unfold fetch_targets. rewrite (requests_targets _ _ _ _ _ _ Hall). reflexivity.
  - eapply Issued_success; [exact HI|reflexivity].
  - exact Hbunch.
Qed.

Lemma assembler_steps_in_order_witness :
  let E := Scenario.externals [A001; A002] [Scenario.row "A001"; Scenario.row "A002"] [] in
  let r := @fetch_hbnssi E (Some "/data") true 1 ∅ in
  exists b root_dir registry_paths registry_path participants mask_paths osf_data subject_events,
    result r = inr b
    /\ events r
       = [GetDatasetDir "hbnssi" (Some "/data") 1 (inr root_dir);
          FetchFiles (registry_request root_dir 1) (inr registry_paths);
          CsvParticipants registry_path (inr participants)]
         ++ [FetchFiles (mask_request root_dir 1) (inr mask_paths)]
         ++ (CsvOsf (@lookup_path E) (inr osf_data) :: subject_events)
         ++ [Mkdir (decoding_dir root_dir) true true (inr tt);
             Mkdir (mask_cache_dir root_dir) true true (inr tt)]
    /\ fetch_targets subject_events = planned_targets root_dir (map p_sid participants)
    /\ Forall (fun ev => exists c x l, ev = FetchFiles c (inr (x :: l))) subject_events
    /\ b = {| subjects := map p_sid participants;
              mask := mask b;
              task_dir := derivatives root_dir;
              out_dir := decoding_dir root_dir;
              mask_cache := mask_cache_dir root_dir |}.
Proof.
  intros E r.
  assert (Hb : result r = inr two_subjects_bunch) by (vm_compute; reflexivity).
  exists two_subjects_bunch.
  destruct (@assembler_steps_in_order E (Some "/data") true 1 ∅ two_subjects_bunch Hb)
    as (root_dir & regs & reg & ps & masks & osf & evs & H1 & H2 & H3 & H4).
  exists root_dir, regs, reg, ps, masks, osf, evs.
  split; [exact Hb|]. split; [exact H1|]. split; [exact H2|]. split; [exact H3|exact H4].
Defined.

(** C7: the result of a run that returns holds exactly: the subject ids in
    the order of the registry file (the ids of the rows the parser returned,
    mapped in order), the path the retrieval helper returned for the mask,
    and the three directories [derivatives], [decoding] and [mask_cache] of
    the dataset root. *)
Theorem result_packages_the_fetch `{Externals}
    (data_dir : option string) (resume : bool) (verbose : Z) (fs : FS) (b : Bunch) :
  result (fetch_hbnssi data_dir resume verbose fs) = inr b ->
  exists root_dir registry_path participants mask_paths,
    In (GetDatasetDir "hbnssi" data_dir 1 (inr root_dir))
       (events (fetch_hbnssi data_dir resume verbose fs))
    /\ In (CsvParticipants registry_path (inr participants))
          (events (fetch_hbnssi data_dir resume verbose fs))
    /\ In (FetchFiles (mask_request root_dir verbose) (inr mask_paths))
          (events (fetch_hbnssi data_dir resume verbose fs))
    /\ subjects b = map p_sid participants
    /\ getitem0 mask_paths = inr (mask b)
    /\ task_dir b = Path [PStr root_dir; PStr "derivatives"]
    /\ out_dir b = Path [PStr root_dir; PStr "decoding"]
    /\ mask_cache b = Path [PStr root_dir; PStr "mask_cache"].
Proof.
  intros Hb. destruct (fetch_hbnssi_completed _ _ _ _ _ Hb)
    as [root_dir fs1 regs reg fs2 ps masks fs3 fs4 fs5 functional
        _ _ _ _ _ Hmask0 _ _ _ Hev _ Hbunch].
  exists root_dir, reg, ps, masks. rewrite Hev.
  split; [left; reflexivity|]. split; [right; right; left; reflexivity|].
  split; [right; right; right; left; reflexivity|].
  split; [rewrite Hbunch; reflexivity|]. split; [exact Hmask0|].
  rewrite Hbunch. cbn [task_dir out_dir mask_cache]. auto.
Qed.

Lemma result_packages_the_fetch_witness :
  let E := Scenario.externals [A001; A002] [Scenario.row "A001"; Scenario.row "A002"] [] in
  let r := @fetch_hbnssi E (Some "/data") true 1 ∅ in
  exists b,
    result r = inr b
    /\ subjects b = ["A001"; "A002"]
    /\ exists root_dir registry_path participants mask_paths,
         In (GetDatasetDir "hbnssi" (Some "/data") 1 (inr root_dir)) (events r)
         /\ In (CsvParticipants registry_path (inr participants)) (events r)
         /\ In (FetchFiles (mask_request root_dir 1) (inr mask_paths)) (events r)
         /\ subjects b = map p_sid participants
         /\ getitem0 mask_paths = inr (mask b)
         /\ task_dir b = Path [PStr root_dir; PStr "derivatives"]
         /\ out_dir b = Path [PStr root_dir; PStr "decoding"]
         /\ mask_cache b = Path [PStr root_dir; PStr "mask_cache"].
Proof.
  intros E r.
  assert (Hb : result r = inr two_subjects_bunch) by (vm_compute; reflexivity).
  exists two_subjects_bunch. split; [exact Hb|]. split; [reflexivity|].
  exact (@result_packages_the_fetch E (Some "/data") true 1 ∅ two_subjects_bunch Hb).
Defined.

Lemma parent_snoc r up x :
  parent {| root := r; parts := rev (x :: up) |} = {| root := r; parts := rev up |}.
Proof. unfold parent. cbn [root parts rev]. rewrite removelast_last. reflexivity. Qed.

Lemma node_at_snoc fs r up x :
  posix.node_at fs {| root := r; parts := rev (x :: up) |}
  = fs !! {| root := r; parts := rev (x :: up) |}.
Proof.
  unfold posix.node_at. cbn [parts rev].
  destruct (rev up ++ [x]) eqn:Hl; [|reflexivity].
  destruct (rev up); discriminate.
Qed.

Lemma node_at_top fs r : posix.node_at fs {| root := r; parts := [] |} = Some Dir.
Proof. reflexivity. Qed.

Lemma adds_directories_refl fs : adds_directories fs fs.
Proof. intros q. left. reflexivity. Qed.

Lemma adds_directories_trans fs1 fs2 fs3 :
  adds_directories fs1 fs2 -> adds_directories fs2 fs3 -> adds_directories fs1 fs3.
Proof.
  intros H12 H23 q. destruct (H12 q) as [H1|[H1 H1']], (H23 q) as [H2|[H2 H2']].
  - left. congruence.
  - right. split; congruence.
  - right. split; congruence.
  - congruence.
Qed.

Lemma adds_directories_node fs fs' q :
  adds_directories fs fs' ->
  posix.node_at fs' q = posix.node_at fs q
  \/ (posix.node_at fs q = None /\ posix.node_at fs' q = Some Dir).
Proof.
  intros Hadd. unfold posix.node_at. destruct (parts q); [left; reflexivity|apply Hadd].
Qed.

Lemma adds_directories_is_dir fs fs' q :
  adds_directories fs fs' -> posix.is_dir fs q = true -> posix.is_dir fs' q = true.
Proof.
  intros Hadd. unfold posix.is_dir.
  destruct (adds_directories_node fs fs' q Hadd) as [->|[-> ->]]; [auto|discriminate].
Qed.

Lemma adds_directories_no_file fs fs' q :
  adds_directories fs fs' -> no_file_at fs q = true -> no_file_at fs' q = true.
Proof.
  intros Hadd. unfold no_file_at.
  destruct (adds_directories_node fs fs' q Hadd) as [->|[_ ->]]; auto.
Qed.

Lemma adds_directories_insert fs p :
  fs !! p = None -> adds_directories fs (<[p := Dir]> fs).
Proof.
  intros Hp q. destruct (decide (p = q)) as [<-|Hne].
  - right. rewrite lookup_insert_eq. auto.
  - left. apply lookup_insert_ne. exact Hne.
Qed.

Lemma well_formed_insert fs p :
  well_formed fs -> fs !! p = None -> posix.is_dir fs (parent p) = true ->
  well_formed (<[p := Dir]> fs).
Proof.
  intros Hwf Hp Hpar. unfold well_formed.
  apply map_Forall_insert_2.
  - apply (adds_directories_is_dir fs); [apply adds_directories_insert; exact Hp|exact Hpar].
  - intros q n Hq. apply (adds_directories_is_dir fs);
      [apply adds_directories_insert; exact Hp|exact (Hwf q n Hq)].
Qed.

Lemma is_dir_node fs q : posix.is_dir fs q = true <-> posix.node_at fs q = Some Dir.
Proof.
  unfold posix.is_dir. destruct (posix.node_at fs q) as [[|]|]; split; congruence.
Qed.

(** [Path.mkdir(parents=True, exist_ok=True)] succeeds whenever nothing on
    the way is a regular file, and only ever adds directories. *)
Lemma mkdir_from_ok r up fs :
  forallb (no_file_at fs) (lineage r up) = true ->
  exists fs',
    posix.mkdir_from r up true true fs = (fs', inr tt)
    /\ posix.is_dir fs' {| root := r; parts := rev up |} = true
    /\ adds_directories fs fs'
    /\ (well_formed fs -> well_formed fs').
Proof.
  revert fs. induction up as [|x up IH]; intros fs Hclear.
  - exists fs. split; [reflexivity|]. split; [reflexivity|].
    split; [apply adds_directories_refl|auto].
  - cbn [lineage forallb] in Hclear. apply andb_prop in Hclear as [Hself Hup].
    change (posix.mkdir_from r (x :: up) true true fs)
      with (let p := {| root := r; parts := rev (x :: up) |} in
            match posix.os_mkdir p fs with
            | (fs', inr _) => (fs', inr tt)
            | (_, inl FileNotFoundError) =>
                match posix.mkdir_from r up true true fs with
                | (fs1, inr _) => posix.mkdir_here p true fs1
                | (fs1, inl e) => (fs1, inl e)
                end
            | (_, inl e) => if true && posix.is_dir fs p then (fs, inr tt) else (fs, inl e)
            end).
    set (p := {| root := r; parts := rev (x :: up) |}) in *. cbn zeta.
    assert (Hnode : forall fs0, posix.node_at fs0 p = fs0 !! p)
      by (intros fs0; apply node_at_snoc).
    assert (Hpar : parent p = {| root := r; parts := rev up |}) by apply parent_snoc.
    assert (Hparent : no_file_at fs (parent p) = true).
    { rewrite Hpar. destruct up; cbn [lineage forallb] in Hup;
        apply andb_prop in Hup as [Hup _]; exact Hup. }
    unfold posix.os_mkdir. rewrite Hnode.
    destruct (fs !! p) as [[|]|] eqn:Hp.
    + exists fs. cbn [andb].
      assert (Hd : posix.is_dir fs p = true) by (apply is_dir_node; rewrite Hnode; exact Hp).
      rewrite Hd. split; [reflexivity|]. split; [reflexivity|].
      split; [apply adds_directories_refl|auto].
    + unfold no_file_at in Hself. rewrite Hnode, Hp in Hself. discriminate.
    + unfold no_file_at in Hparent.
      destruct (posix.node_at fs (parent p)) as [[|]|] eqn:Hq; [| discriminate |].
      * exists (<[p := Dir]> fs). split; [reflexivity|].
        split; [apply is_dir_node; rewrite Hnode; apply lookup_insert_eq|].
        split; [apply adds_directories_insert; exact Hp|].
        intros Hwf. apply well_formed_insert; [exact Hwf|exact Hp|].
        apply is_dir_node. exact Hq.
      * destruct (IH fs Hup) as (fs1 & Hrec & Hdir1 & Hadd1 & Hwf1).
        rewrite Hrec. unfold posix.mkdir_here, posix.os_mkdir. rewrite Hnode.
        rewrite <- Hpar in Hdir1.
        destruct (Hadd1 p) as [H1|[_ H1]].
        -- rewrite Hp in H1. rewrite H1. apply is_dir_node in Hdir1 as Hq1. rewrite Hq1.
           exists (<[p := Dir]> fs1). split; [reflexivity|].
           split; [apply is_dir_node; rewrite Hnode; apply lookup_insert_eq|].
           split.
           ++ eapply adds_directories_trans; [exact Hadd1|].
              apply adds_directories_insert. exact H1.
           ++ intros Hwf. apply well_formed_insert; [auto|exact H1|exact Hdir1].
        -- rewrite H1. cbn [andb].
           assert (Hd : posix.is_dir fs1 p = true)
             by (apply is_dir_node; rewrite Hnode; exact H1).
           rewrite Hd. exists fs1. auto.
Qed.

(** On an existing directory the call changes nothing and does not raise. *)
Lemma mkdir_existing p parents fs :
  posix.is_dir fs p = true -> posix.mkdir p parents true fs = (fs, inr tt).
Proof.
  intros Hd. unfold posix.mkdir.
  assert (Hp : {| root := root p; parts := rev (rev (parts p)) |} = p).
  { rewrite rev_involutive. destruct p; reflexivity. }
  apply is_dir_node in Hd as Hn.
  destruct (rev (parts p)) as [|x up] eqn:Hr.
  - cbn [posix.mkdir_from]. unfold posix.os_mkdir. rewrite node_at_top. cbn [andb].
    reflexivity.
  - change (posix.mkdir_from (root p) (x :: up) parents true fs)
      with (let q := {| root := root p; parts := rev (x :: up) |} in
            match posix.os_mkdir q fs with
            | (fs', inr _) => (fs', inr tt)
            | (_, inl FileNotFoundError) =>
                if parents then
                  match posix.mkdir_from (root p) up true true fs with
                  | (fs1, inr _) => posix.mkdir_here q true fs1
                  | (fs1, inl e) => (fs1, inl e)
                  end
                else (fs, inl FileNotFoundError)
            | (_, inl e) => if true && posix.is_dir fs q then (fs, inr tt) else (fs, inl e)
            end).
    cbn zeta. rewrite Hp. unfold posix.os_mkdir. rewrite Hn. cbn [andb]. rewrite Hd.
    reflexivity.
Qed.

(** In a well-formed file system the directories above a directory exist. *)
Lemma well_formed_lineage fs r up :
  well_formed fs ->
  posix.is_dir fs {| root := r; parts := rev up |} = true ->
  forallb (posix.is_dir fs) (lineage r up) = true.
Proof.
  intros Hwf. induction up as [|x up IH]; intros Hd; cbn [lineage forallb].
  - rewrite Hd. reflexivity.
  - rewrite Hd. cbn [andb]. apply IH.
    apply is_dir_node in Hd. rewrite node_at_snoc in Hd.
    pose proof (Hwf _ _ Hd) as Hpar. cbn beta in Hpar.
    rewrite parent_snoc in Hpar. exact Hpar.
Qed.

Lemma bind_ret_l {A B} (a : A) (k : A -> M B) (fs : FS) : bind (ret a) k fs = k a fs.
Proof. unfold bind, ret. cbn. apply run_eta. Qed.

Section Directories.

Context `{Externals}.

Lemma fetch_hbnssi_split data_dir resume verbose fs :
fetch_hbnssi data_dir resume verbose fs
= bind (before_directories data_dir resume verbose)
       (fun x => match x with
                 | (dd, ps, m, dv) => make_directories dd ps m dv
                 end) fs.
Proof.
unfold fetch_hbnssi, before_directories. cbn zeta. rewrite !bind_assoc.
apply bind_ext. intros dd fs1. rewrite !bind_assoc.
apply bind_ext. intros ps fs2. rewrite !bind_assoc.
apply bind_ext. intros m fs3. rewrite !bind_assoc.
apply bind_ext. intros dv fs4. rewrite bind_ret_l. reflexivity.
Qed.

Lemma make_directories_run dd ps m dv fs fs1 fs2 :
posix.mkdir (decoding_dir dd) true true fs = (fs1, inr tt) ->
posix.mkdir (mask_cache_dir dd) true true fs1 = (fs2, inr tt) ->
make_directories dd ps m dv fs
= mkRun fs2 [Mkdir (decoding_dir dd) true true (inr tt);
             Mkdir (mask_cache_dir dd) true true (inr tt)]
        (inr {| subjects := map p_sid ps; mask := m; task_dir := dv;
                out_dir := decoding_dir dd; mask_cache := mask_cache_dir dd |}).
Proof.
intros H1 H2. unfold make_directories, bind, Path_mkdir, ret.
fold (decoding_dir dd). fold (mask_cache_dir dd).
rewrite H1. cbn [result events fs_after]. rewrite H2. reflexivity.
Qed.

Lemma mkdir_ok p fs :
way_is_clear fs p = true ->
exists fs',
  posix.mkdir p true true fs = (fs', inr tt)
  /\ posix.is_dir fs' p = true
  /\ adds_directories fs fs'
  /\ (well_formed fs -> well_formed fs'
                        /\ forallb (posix.is_dir fs') (ancestors_or_self p) = true).
Proof.
intros Hclear. unfold way_is_clear, ancestors_or_self in Hclear.
destruct (mkdir_from_ok _ _ _ Hclear) as (fs' & Hrun & Hdir & Hadd & Hwf).
rewrite rev_involutive in Hdir.
exists fs'. split; [exact Hrun|]. split; [destruct p; exact Hdir|].
split; [exact Hadd|]. intros Hw. split; [auto|].
unfold ancestors_or_self. apply well_formed_lineage; [auto|].
rewrite rev_involutive. exact Hdir.
Qed.

End Directories.

(** C8: the two output directories.  Once the fetch step has completed,
    whatever it downloaded, [fetch_hbnssi] creates [decoding] and [mask_cache]
    with [parents=True, exist_ok=True].  Such a call on a path that is
    already a directory changes nothing and does not raise; so when both are
    directories the file system is left as it was and the function returns.
    When nothing on the way to them is a regular file, the function returns
    with both directories present, nothing that existed is touched, and in a
    well-formed file system every directory above them exists afterwards,
    the missing ones having been created. *)
Theorem output_directories_are_ensured `{Externals}
    (data_dir : option string) (resume : bool) (verbose : Z) (fs : FS)
    (dd : string) (ps : list ParticipantRecord) (m : string) (dv : PurePath) :
  let before := before_directories data_dir resume verbose fs in
  let r := fetch_hbnssi data_dir resume verbose fs in
  result before = inr (dd, ps, m, dv) ->
  (forall p fs0, posix.is_dir fs0 p = true -> posix.mkdir p true true fs0 = (fs0, inr tt))
  /\ (posix.is_dir (fs_after before) (decoding_dir dd) = true ->
   posix.is_dir (fs_after before) (mask_cache_dir dd) = true ->
   fs_after r = fs_after before
   /\ events r = events before ++ [Mkdir (decoding_dir dd) true true (inr tt);
                                   Mkdir (mask_cache_dir dd) true true (inr tt)]
   /\ exists b, result r = inr b)
  /\ (way_is_clear (fs_after before) (decoding_dir dd) = true ->
      way_is_clear (fs_after before) (mask_cache_dir dd) = true ->
      exists b,
        result r = inr b
        /\ out_dir b = decoding_dir dd /\ mask_cache b = mask_cache_dir dd
        /\ events r = events before ++ [Mkdir (decoding_dir dd) true true (inr tt);
                                        Mkdir (mask_cache_dir dd) true true (inr tt)]
        /\ posix.is_dir (fs_after r) (decoding_dir dd) = true
        /\ posix.is_dir (fs_after r) (mask_cache_dir dd) = true
        /\ adds_directories (fs_after before) (fs_after r)
        /\ (well_formed (fs_after before) ->
            well_formed (fs_after r)
            /\ forallb (posix.is_dir (fs_after r)) (ancestors_or_self (decoding_dir dd)) = true
            /\ forallb (posix.is_dir (fs_after r)) (ancestors_or_self (mask_cache_dir dd)) = true)).
Proof.
  intros before r Hbefore.
  assert (Hr : forall fs1 fs2,
             posix.mkdir (decoding_dir dd) true true (fs_after before) = (fs1, inr tt) ->
             posix.mkdir (mask_cache_dir dd) true true fs1 = (fs2, inr tt) ->
             fs_after r = fs2
             /\ events r = events before ++ [Mkdir (decoding_dir dd) true true (inr tt);
                                             Mkdir (mask_cache_dir dd) true true (inr tt)]
             /\ result r = inr {| subjects := map p_sid ps; mask := m; task_dir := dv;
                                  out_dir := decoding_dir dd;
                                  mask_cache := mask_cache_dir dd |}).
  { intros fs1 fs2 H1 H2. subst r. rewrite fetch_hbnssi_split. unfold bind.
    fold before. rewrite Hbefore. rewrite (make_directories_run dd ps m dv _ _ _ H1 H2).
    cbn [result events fs_after]. auto. }
  split; [intros p fs0; apply mkdir_existing|]. split.
  - intros Hd1 Hd2.
    destruct (Hr _ _ (mkdir_existing _ true _ Hd1) (mkdir_existing _ true _ Hd2))
      as (Hfs & Hev & Hres).
    split; [exact Hfs|]. split; [exact Hev|]. eexists. exact Hres.
  - intros Hc1 Hc2.
    destruct (mkdir_ok _ _ Hc1) as (fs1 & Hrun1 & Hdir1 & Hadd1 & Hwf1).
    assert (Hc2' : way_is_clear fs1 (mask_cache_dir dd) = true).
    { unfold way_is_clear in *. rewrite forallb_forall in *.
      intros q Hq. apply (adds_directories_no_file _ _ _ Hadd1). apply Hc2. exact Hq. }
    destruct (mkdir_ok _ _ Hc2') as (fs2 & Hrun2 & Hdir2 & Hadd2 & Hwf2).
    destruct (Hr _ _ Hrun1 Hrun2) as (Hfs & Hev & Hres).
    eexists. split; [exact Hres|]. split; [reflexivity|]. split; [reflexivity|].
    split; [exact Hev|]. rewrite Hfs.
    split; [exact (adds_directories_is_dir _ _ _ Hadd2 Hdir1)|].
    split; [exact Hdir2|].
    split; [exact (adds_directories_trans _ _ _ Hadd1 Hadd2)|].
    intros Hwf. destruct (Hwf1 Hwf) as [Hw1 Hl1]. destruct (Hwf2 Hw1) as [Hw2 Hl2].
    split; [exact Hw2|]. split; [|exact Hl2].
    rewrite forallb_forall in *. intros q Hq.
    apply (adds_directories_is_dir _ _ _ Hadd2). apply Hl1. exact Hq.
Qed.

Lemma output_directories_are_ensured_witness :
  let E := Scenario.externals [A001; A002] [Scenario.row "A001"; Scenario.row "A002"] [] in
  let first := @fetch_hbnssi E (Some "/data") true 1 ∅ in
  let again := @fetch_hbnssi E (Some "/data") true 1 (fs_after first) in
  (posix.is_dir ∅ (decoding_dir "/data/hbnssi") = false
   /\ posix.is_dir (fs_after first) (decoding_dir "/data/hbnssi") = true
   /\ posix.is_dir (fs_after first) (mask_cache_dir "/data/hbnssi") = true
   /\ exists b, result first = inr b)
  /\ (fs_after again
      = fs_after (@before_directories E (Some "/data") true 1 (fs_after first))
      /\ exists b, result again = inr b).
Proof.
  intros E first again.
  pose (x := ("/data/hbnssi", [A001; A002], "/data/hbnssi/" +:+ target_fname,
              derivatives "/data/hbnssi")).
  assert (H1 : result (@before_directories E (Some "/data") true 1 ∅) = inr x)
    by (vm_compute; reflexivity).
  assert (H2 : result (@before_directories E (Some "/data") true 1 (fs_after first)) = inr x)
    by (vm_compute; reflexivity).
  split.
  - destruct (@output_directories_are_ensured E (Some "/data") true 1 ∅
                "/data/hbnssi" [A001; A002] ("/data/hbnssi/" +:+ target_fname)
                (derivatives "/data/hbnssi") H1) as (_ & _ & Hcreate).
    destruct Hcreate as (b & Hb & _ & _ & _ & Hd1 & Hd2 & _);
      [vm_compute; reflexivity|vm_compute; reflexivity|].
    split; [vm_compute; reflexivity|]. split; [exact Hd1|]. split; [exact Hd2|].
    exists b. exact Hb.
  - destruct (@output_directories_are_ensured E (Some "/data") true 1 (fs_after first)
                "/data/hbnssi" [A001; A002] ("/data/hbnssi/" +:+ target_fname)
                (derivatives "/data/hbnssi") H2) as (_ & Hnoop & _).
    destruct Hnoop as (Hfs & _ & b & Hb);
      [vm_compute; reflexivity|vm_compute; reflexivity|].
    split; [exact Hfs|]. exists b. exact Hb.
Defined.

(** ** Paths of distinct artifacts *)

Lemma chars_app (a b : string) :
  list_ascii_of_string (a +:+ b) = list_ascii_of_string a ++ list_ascii_of_string b.
Proof. induction a as [|c a IH]; simpl; [reflexivity|]. rewrite IH. reflexivity. Qed.

Lemma chars_inj (a b : string) :
  list_ascii_of_string a = list_ascii_of_string b -> a = b.
Proof.
  intros Hab. rewrite <- (string_of_list_ascii_of_string a), Hab.
  apply string_of_list_ascii_of_string.
Qed.

(** The four suffixes end differently, so an id followed by a suffix
    determines both. *)
Lemma suffix_decides (sid1 sid2 : string) (k1 k2 : Kind) :
  sid1 +:+ suffix k1 = sid2 +:+ suffix k2 -> sid1 = sid2 /\ k1 = k2.
Proof.
  intros Heq. apply (f_equal list_ascii_of_string) in Heq.
  rewrite !chars_app in Heq. apply (f_equal (@rev ascii)) in Heq.
  rewrite !rev_app_distr in Heq.
  destruct k1, k2; cbn in Heq; try discriminate Heq;
    (split; [|reflexivity]); apply chars_inj, rev_inj;
    match type of Heq with
    | ?l = ?l' => exact (app_inv_head _ _ _ Heq) || (injection Heq; auto)
    end.
Qed.

Lemma contains_app c (a b : string) :
  Str.contains c (a +:+ b) = Str.contains c a || Str.contains c b.
Proof.
  induction a as [|x a IH]; simpl; [reflexivity|]. rewrite IH, orb_assoc. reflexivity.
Qed.

Lemma split_without_separator c (s : string) :
  Str.contains c s = false -> Str.split c s = [s].
Proof.
  induction s as [|x s IH]; simpl; [reflexivity|]. intros Hc.
  apply orb_false_elim in Hc as [Hx Hs]. rewrite Hx, (IH Hs). reflexivity.
Qed.

Lemma filename_components (k : Kind) (sid : string) :
  Str.contains "/" sid = false -> components (filename k sid) = [filename k sid].
Proof.
  intros Hsid. unfold components. rewrite split_without_separator.
  - reflexivity.
  - unfold filename. rewrite !contains_app, Hsid. destruct k; reflexivity.
Qed.

Lemma derive_parts (data_dir : string) (k : Kind) (sid : string) :
  Str.contains "/" sid = false ->
  derive data_dir k sid
  = {| root := fst (splitroot (str (derivatives data_dir)));
       parts := components (snd (splitroot (str (derivatives data_dir))))
                ++ [filename k sid] |}.
Proof.
  intros Hsid. unfold derive, Path. cbn [map fspath parse_parts].
  change (splitroot (filename k sid)) with ("", filename k sid).
  cbn [root String.eqb negb parts]. rewrite filename_components by exact Hsid.
  destruct (splitroot (str (derivatives data_dir))) as [r rel]. reflexivity.
Qed.

Lemma derive_inj (data_dir : string) (k1 k2 : Kind) (sid1 sid2 : string) :
  Str.contains "/" sid1 = false -> Str.contains "/" sid2 = false ->
  derive data_dir k1 sid1 = derive data_dir k2 sid2 ->
  sid1 = sid2 /\ k1 = k2.
Proof.
  intros H1 H2 Heq. rewrite (derive_parts _ _ _ H1), (derive_parts _ _ _ H2) in Heq.
  injection Heq as Heq. apply app_inv_head in Heq. injection Heq as Heq.
  unfold filename in Heq. apply suffix_decides.
  exact Heq.
Qed.

Lemma in_plan (sids : list string) (a : string * Kind) : In a (plan sids) -> In (fst a) sids.
Proof.
  unfold plan. rewrite in_flat_map. intros (sid & Hsid & Ha).
  rewrite in_map_iff in Ha. destruct Ha as (k & <- & _). exact Hsid.
Qed.

Lemma NoDup_plan (sids : list string) : NoDup sids -> NoDup (plan sids).
Proof.
  induction 1 as [|sid sids Hnot _ IH]; [constructor|].
  change (plan (sid :: sids))
    with ((sid, Raiders) :: (sid, Flanker) :: (sid, Condition) :: (sid, RunIndex)
          :: plan sids).
  assert (Hout : forall k, (sid, k) ∉ plan sids).
  { intros k Hin. apply list_elem_of_In, in_plan in Hin. apply Hnot, list_elem_of_In, Hin. }
  repeat (apply NoDup_cons_2;
          [rewrite ?not_elem_of_cons; repeat split; try discriminate; apply Hout|]).
  exact IH.
Qed.

(** C6 as stated fails on ids that contain a path separator: [Path] drops
    empty components, so the ids [a/b] and [a//b] give the same file. *)
Lemma separator_in_id_merges_paths :
  String.eqb "a/b" "a//b" = false
  /\ derive "/data/hbnssi" Raiders "a/b" = derive "/data/hbnssi" Raiders "a//b"
  /\ let E := Scenario.externals [] [Scenario.row "a/b"; Scenario.row "a//b"] [] in
     let r := @_fetch_hbnssi_functional E
                [Scenario.participant "a/b"; Scenario.participant "a//b"]
                "/data/hbnssi" None true 1 ∅ in
     result r = inr (derivatives "/data/hbnssi")
     /\ firstn 4 (fetch_targets (events r)) = skipn 4 (fetch_targets (events r)).
Proof. vm_compute. repeat split. Qed.

(** C6 (as the code has it): for subject ids without a path separator, two
    different (subject, kind) pairs never share a local path; and in a run
    over participants with pairwise distinct such ids no two requests target
    the same path. *)
Theorem distinct_artifacts_distinct_paths `{Externals}
    (participants : list ParticipantRecord) (data_dir : string) (url : option string)
    (resume : bool) (verbose : Z) (fs : FS) :
  Forall (fun p => Str.contains "/" (p_sid p) = false) participants ->
  NoDup (map p_sid participants) ->
  (forall p1 p2 k1 k2,
      In p1 participants -> In p2 participants ->
      derive data_dir k1 (p_sid p1) = derive data_dir k2 (p_sid p2) ->
      p_sid p1 = p_sid p2 /\ k1 = k2)
  /\ NoDup (fetch_targets
              (events (_fetch_hbnssi_functional participants data_dir url resume verbose fs))).
Proof.
  intros Hsep Hdistinct. rewrite Forall_forall in Hsep.
  assert (Hinj : forall p1 p2 k1 k2,
             In p1 participants -> In p2 participants ->
             derive data_dir k1 (p_sid p1) = derive data_dir k2 (p_sid p2) ->
             p_sid p1 = p_sid p2 /\ k1 = k2).
  { intros p1 p2 k1 k2 H1 H2. apply derive_inj; apply Hsep; apply list_elem_of_In; assumption. }
  split; [exact Hinj|].
  destruct (functional_calls participants data_dir url resume verbose fs)
    as (osf & n & _ & Hall & _).
  unfold fetch_targets. rewrite (requests_targets _ _ _ _ _ _ Hall).
  rewrite <- firstn_map.
  eapply sublist_NoDup; [|apply sublist_take].
  apply NoDup_ListNoDup, NoDup_map_NoDup_ForallPairs; [|apply NoDup_ListNoDup, NoDup_plan, Hdistinct].
  intros a b Ha Hb Hab. apply in_plan in Ha, Hb.
  rewrite in_map_iff in Ha, Hb. destruct Ha as (p1 & Hp1 & Hin1), Hb as (p2 & Hp2 & Hin2).
  injection Hab as Hab. rewrite <- Hp1, <- Hp2 in Hab.
  destruct (Hinj p1 p2 _ _ Hin1 Hin2 Hab) as [Hs Hk].
  destruct a, b. cbn [fst snd] in *. congruence.
Qed.

Lemma distinct_artifacts_distinct_paths_witness :
  let E := Scenario.externals [A001; A002] [Scenario.row "A001"; Scenario.row "A002"] [] in
  (forall p1 p2 k1 k2,
      In p1 [A001; A002] -> In p2 [A001; A002] ->
      derive "/data/hbnssi" k1 (p_sid p1) = derive "/data/hbnssi" k2 (p_sid p2) ->
      p_sid p1 = p_sid p2 /\ k1 = k2)
  /\ NoDup (fetch_targets
              (events (@_fetch_hbnssi_functional E [A001; A002] "/data/hbnssi" None true 1 ∅))).
Proof.
  intros E.
  apply (@distinct_artifacts_distinct_paths E [A001; A002] "/data/hbnssi" None true 1 ∅).
  - repeat constructor.
  - cbn [map A001 A002 Scenario.participant p_sid].
    apply NoDup_cons_2; [rewrite not_elem_of_cons; split; [discriminate|apply not_elem_of_nil]|].
    apply NoDup_singleton.
Defined.

(** * Further properties of the code *)

(** ** Stopping at the first exception *)

Lemma fail_fast_weaken {A} (P Q : Exn -> Prop) (r : Run A) :
  (forall e, P e -> Q e) -> fail_fast P r -> fail_fast Q r.
Proof.
  unfold fail_fast. intros HPQ. destruct (result r) as [e|a]; [|auto].
  intros (evs & Hok & [[Hev HP]|Hlast]); exists evs; split; auto.
Qed.

Lemma fail_fast_bind {A B} (P : Exn -> Prop) (m : M A) (k : A -> M B) (fs : FS) :
  fail_fast P (m fs) -> (forall a fs', fail_fast P (k a fs')) ->
  fail_fast P (bind m k fs).
Proof.
  unfold fail_fast, bind. destruct (m fs) as [fs1 ev1 [e|a]]; cbn [result events fs_after].
  - auto.
  - intros Hm Hk. specialize (Hk a fs1).
    destruct (k a fs1) as [fs2 ev2 [e|b]]; cbn [result events fs_after] in *.
    + destruct Hk as (evs & Hok & [[Hev HP]|(ev & Hev & Hr)]).
      * exists (ev1 ++ evs). split; [apply Forall_app; auto|]. left. subst. auto.
      * exists (ev1 ++ evs). split; [apply Forall_app; auto|]. right.
        exists ev. rewrite Hev, app_assoc. auto.
    + apply Forall_app. auto.
Qed.

Lemma fail_fast_lift {A} (P : Exn -> Prop) (x : Exn + A) (fs : FS) :
  (forall e, x = inl e -> P e) -> fail_fast P (lift x fs).
Proof.
  unfold fail_fast, lift. cbn [result events]. destruct x as [e|a]; [|constructor].
  intros HP. exists []. split; [constructor|]. left. auto.
Qed.

Lemma fail_fast_ret {A} (P : Exn -> Prop) (a : A) (fs : FS) : fail_fast P (ret a fs).
Proof. unfold fail_fast, ret. cbn [result events]. constructor. Qed.

(** An outside call is one event, and its outcome is the result. *)
Lemma fail_fast_call {A} (P : Exn -> Prop) (ev : Event) (out : Exn + A) (fs : FS) :
  raised_by ev = err out -> fail_fast P (mkRun fs [ev] out).
Proof.
  unfold fail_fast. cbn [result events]. intros Hev. destruct out as [e|a].
  - exists []. split; [constructor|]. right. exists ev. auto.
  - repeat constructor. exact Hev.
Qed.

Lemma getitem0_raises {A} (l : list A) e : getitem0 l = inl e -> e = IndexError.
Proof. destruct l; [intros [= <-]; reflexivity|discriminate]. Qed.

Lemma format_with_default_url key :
  Str.format default_url key = inr ("https://osf.io/download/" +:+ key +:+ "/").
Proof. reflexivity. Qed.

Section FailFast.

Context `{Externals}.

Lemma fail_fast_fetch_files P data_dir files resume verbose fs :
  fail_fast P (_fetch_files data_dir files resume verbose fs).
Proof.
  unfold _fetch_files. destruct (nilearn_fetch_files _ fs) as [fs1 out].
  apply fail_fast_call. reflexivity.
Qed.

Lemma fail_fast_download column k rows sid data_dir dv url resume verbose fs :
  fail_fast (loop_raises url)
    (download column (template k) rows sid data_dir dv url resume verbose fs).
Proof.
  unfold download.
  apply fail_fast_bind;
    [apply fail_fast_lift; intros e He; left; exact (getitem0_raises _ _ He)|].
  intros key fs1. apply fail_fast_bind;
    [apply fail_fast_lift; intros e He; right; exists key; exact He|].
  intros u fs2. apply fail_fast_bind;
    [apply fail_fast_lift; intros e He; rewrite format_template in He; discriminate He|].
  intros name fs3. apply fail_fast_bind; [apply fail_fast_fetch_files|].
  intros l fs4. apply fail_fast_lift. intros e He. left. exact (getitem0_raises _ _ He).
Qed.

Lemma fail_fast_for_sid osf_data data_dir dv url resume verbose sids acc fs :
  fail_fast (loop_raises url)
    (for_sid sids (loop_body osf_data data_dir dv url resume verbose) acc fs).
Proof.
  revert acc fs. induction sids as [|sid sids IH]; intros acc fs; cbn [for_sid].
  - apply fail_fast_ret.
  - apply fail_fast_bind; [|intros; apply IH].
    unfold loop_body.
    apply fail_fast_bind; [apply (fail_fast_download _ Raiders)|]. intros p1 fs1.
    apply fail_fast_bind; [apply (fail_fast_download _ Flanker)|]. intros p2 fs2.
    apply fail_fast_bind; [apply (fail_fast_download _ Condition)|]. intros p3 fs3.
    apply fail_fast_bind; [apply (fail_fast_download _ RunIndex)|]. intros p4 fs4.
    apply fail_fast_ret.
Qed.

Lemma fail_fast_functional participants data_dir url resume verbose fs :
  fail_fast (loop_raises (url_or_default url))
    (_fetch_hbnssi_functional participants data_dir url resume verbose fs).
Proof.
  unfold _fetch_hbnssi_functional.
  apply fail_fast_bind.
  { unfold csv_to_array_osf. apply fail_fast_call. reflexivity. }
  intros osf fs1. apply fail_fast_bind; [|intros; apply fail_fast_ret].
  destruct url; apply fail_fast_for_sid.
Qed.

End FailFast.

Section FailFastAssembler.

Context `{Externals}.

Lemma fail_fast_get_dataset_dir P name data_dir verbose fs :
  fail_fast P (_get_dataset_dir name data_dir verbose fs).
Proof.
  unfold _get_dataset_dir. destruct (nilearn_get_dataset_dir _ _ _ fs) as [fs1 out].
  apply fail_fast_call. reflexivity.
Qed.


Lemma fail_fast_participants data_dir url verbose fs :
  fail_fast (fun e => e = IndexError) (_fetch_hbnssi_participants data_dir url verbose fs).
Proof.
  unfold _fetch_hbnssi_participants.
  apply fail_fast_bind; [apply fail_fast_fetch_files|]. intros l fs1.
  apply fail_fast_bind; [apply fail_fast_lift; apply getitem0_raises|]. intros path fs2.
  apply fail_fast_bind; [|intros; apply fail_fast_ret].
  unfold csv_to_array_participants. apply fail_fast_call. reflexivity.
Qed.

Lemma fail_fast_brain_mask data_dir url verbose fs :
  fail_fast (fun e => e = IndexError) (_fetch_hbnssi_brain_mask data_dir url verbose fs).
Proof.
  unfold _fetch_hbnssi_brain_mask.
  apply fail_fast_bind; [apply fail_fast_fetch_files|]. intros l fs1.
  apply fail_fast_bind; [apply fail_fast_lift; apply getitem0_raises|]. intros path fs2.
  apply fail_fast_ret.
Qed.

End FailFastAssembler.


(** ** The requests of the whole assembler *)

Lemma bind_events_Forall {A B} (P : Event -> Prop) (m : M A) (k : A -> M B) (fs : FS) :
  Forall P (events (m fs)) -> (forall a fs', Forall P (events (k a fs'))) ->
  Forall P (events (bind m k fs)).
Proof.
  unfold bind. destruct (m fs) as [fs1 ev1 [e|a]]; cbn [result events fs_after]; [auto|].
  intros H1 Hk. apply Forall_app. auto.
Qed.

Section AssemblerEvents.

Context `{Externals}.

Lemma participants_events data_dir verbose fs :
  Forall (download_event verbose data_dir)
         (events (_fetch_hbnssi_participants data_dir None verbose fs)).
Proof.
  unfold _fetch_hbnssi_participants.
  apply bind_events_Forall.
  { unfold _fetch_files. fold (registry_request data_dir verbose).
    destruct (nilearn_fetch_files _ fs) as [fs1 out]. repeat constructor. }
  intros l fs1. apply bind_events_Forall; [constructor|]. intros path fs2.
  apply bind_events_Forall; [|constructor].
  unfold csv_to_array_participants. repeat constructor.
Qed.

Lemma brain_mask_events data_dir verbose fs :
  Forall (download_event verbose data_dir)
         (events (_fetch_hbnssi_brain_mask data_dir None verbose fs)).
Proof.
  unfold _fetch_hbnssi_brain_mask.
  apply bind_events_Forall.
  { unfold _fetch_files. fold (mask_request data_dir verbose).
    destruct (nilearn_fetch_files _ fs) as [fs1 out].
    constructor; [right; left; reflexivity|constructor]. }
  intros l fs1. apply bind_events_Forall; constructor.
Qed.

Lemma functional_events participants data_dir resume verbose fs :
  Forall (download_event verbose data_dir)
         (events (_fetch_hbnssi_functional participants data_dir None resume verbose fs)).
Proof.
  pose proof (functional_Issued participants data_dir None resume verbose fs) as HF.
  cbn zeta in HF. destruct (csv_osf lookup_path fs) as [e|osf].
  - rewrite HF. repeat constructor.
  - destruct HF as (evs & -> & HI). constructor; [exact I|].
    destruct (Issued_prefix _ _ _ _ _ _ _ HI) as (n & _ & Hall & _).
    clear HI. induction Hall as [|ev a evs steps (c & out & -> & Hc) _ IH]; constructor.
    + right. right. exists osf, a. exact Hc.
    + exact IH.
Qed.

Lemma download_event_assembler verbose dd evs :
  Forall (download_event verbose dd) evs -> Forall (assembler_event verbose dd) evs.
Proof.
  intros Hd. eapply Forall_impl; [exact Hd|]. intros [] Hev; try exact Hev. destruct Hev.
Qed.

Lemma mkdir_events verbose data_dir p fs :
  p = decoding_dir data_dir \/ p = mask_cache_dir data_dir ->
  Forall (assembler_event verbose data_dir) (events (Path_mkdir p true true fs)).
Proof.
  intros Hp. unfold Path_mkdir. destruct (posix.mkdir p true true fs) as [fs1 out].
  constructor; [|constructor]. split; [reflexivity|]. split; [reflexivity|exact Hp].
Qed.

(** The first event is the call of [_get_dataset_dir]; the others are as
    [assembler_event] says, for the root it returned. *)
Lemma assembler_events data_dir resume verbose fs :
  exists out rest,
    events (fetch_hbnssi data_dir resume verbose fs)
    = GetDatasetDir "hbnssi" data_dir 1 out :: rest
    /\ match out with
       | inl _ => rest = []
       | inr dd => Forall (assembler_event verbose dd) rest
       end.
Proof.
  unfold fetch_hbnssi. cbn zeta.
  match goal with |- context [bind _ ?f fs] => set (k := f) end.
  unfold bind, _get_dataset_dir.
  destruct (nilearn_get_dataset_dir "hbnssi" data_dir 1 fs) as [fs1 [e|dd]];
    cbn [result events fs_after app].
  - exists (inl e), []. auto.
  - eexists (inr dd), _. split; [reflexivity|]. subst k. cbn beta.
    apply bind_events_Forall;
      [apply download_event_assembler, participants_events|]. intros ps fs2.
    apply bind_events_Forall;
      [apply download_event_assembler, brain_mask_events|]. intros m fs3.
    apply bind_events_Forall;
      [apply download_event_assembler, functional_events|]. intros dv fs4.
    apply bind_events_Forall; [apply mkdir_events; left; reflexivity|]. intros u1 fs5.
    apply bind_events_Forall; [apply mkdir_events; right; reflexivity|]. intros u2 fs6.
    constructor.
Qed.

End AssemblerEvents.

Lemma fetch_calls_Forall (Q : FetchCall -> Prop) (evs : list Event) :
  Forall (fun ev => forall c out, ev = FetchFiles c out -> Q c) evs ->
  Forall Q (fetch_calls evs).
Proof.
  induction 1 as [|ev evs Hev _ IH]; [constructor|].
  destruct ev; cbn [fetch_calls flat_map app] in *; try exact IH.
  constructor; [eapply Hev; reflexivity|exact IH].
Qed.

(** X2: every retrieval request of [fetch_hbnssi], in every run, has the same
    make.  The run starts by calling [_get_dataset_dir] with the name
    [hbnssi], the caller's [data_dir] and verbosity 1 (not the caller's);
    every request that follows is made against the root that call returned,
    carries the caller's verbosity, and asks for exactly one file whose only
    option is to be moved to its own name. *)
Theorem assembler_requests_are_uniform `{Externals}
    (data_dir : option string) (resume : bool) (verbose : Z) (fs : FS) :
  exists out rest,
    events (fetch_hbnssi data_dir resume verbose fs)
    = GetDatasetDir "hbnssi" data_dir 1 out :: rest
    /\ Forall (fun c => out = inr (fc_data_dir c)
                        /\ kw_verbose c = Some verbose
                        /\ exists f, fc_files c = [f] /\ file_opts f = [("move", file_ f)])
              (fetch_calls rest).
Proof.
  destruct (assembler_events data_dir resume verbose fs) as (out & rest & Hev & Hrest).
  exists out, rest. split; [exact Hev|].
  destruct out as [e|dd]; [subst rest; constructor|].
  apply fetch_calls_Forall. eapply Forall_impl; [exact Hrest|].
  intros ev Hassembler c out ->. cbn [assembler_event download_event] in Hassembler.
  destruct Hassembler as [->|[->|(osf & a & Hc)]].
  - split; [reflexivity|]. split; [reflexivity|]. eexists. split; reflexivity.
  - split; [reflexivity|]. split; [reflexivity|]. eexists. split; reflexivity.
  - apply prepared_inv in Hc as (key & u & _ & _ & ->).
    split; [reflexivity|]. split; [reflexivity|]. eexists. split; reflexivity.
Qed.

(** X3: what [fetch_hbnssi] downloads and from where.  Every file it
    requests is the registry from its fixed URL, the mask from its fixed URL,
    or the artifact of some subject and kind, under [derivatives] of the
    root, from [https://osf.io/download/<key>/].  The URL overrides of the
    three helpers are never used by the public entry point. *)
Theorem assembler_sources_are_fixed `{Externals}
    (data_dir : option string) (resume : bool) (verbose : Z) (fs : FS) :
  Forall (fun c =>
            Forall (fun f =>
                      (file_ f = PStr "participants.csv"
                       /\ file_url f = "https://osf.io/wtvh3/download")
                      \/ (file_ f = PStr target_fname
                          /\ file_url f = "https://osf.io/kp6m9/download")
                      \/ exists sid k key,
                           file_ f = PPath (derive (fc_data_dir c) k sid)
                           /\ file_url f = "https://osf.io/download/" +:+ key +:+ "/")
                   (fc_files c))
         (fetch_calls (events (fetch_hbnssi data_dir resume verbose fs))).
Proof.
  destruct (assembler_events data_dir resume verbose fs) as (out & rest & -> & Hrest).
  change (fetch_calls (GetDatasetDir "hbnssi" data_dir 1 out :: rest)) with (fetch_calls rest).
  destruct out as [e|dd]; [subst rest; constructor|].
  apply fetch_calls_Forall. eapply Forall_impl; [exact Hrest|].
  intros ev Hassembler c out ->. cbn [assembler_event download_event] in Hassembler.
  destruct Hassembler as [->|[->|(osf & [sid k] & Hc)]].
  - constructor; [|constructor]. left. split; reflexivity.
  - constructor; [|constructor]. right. left. split; reflexivity.
  - apply prepared_inv in Hc as (key & u & _ & Hu & ->).
    rewrite format_with_default_url in Hu. injection Hu as <-.
    constructor; [|constructor]. right. right. exists sid, k, key. split; reflexivity.
Qed.

(** ** The directories the code creates *)

Lemma splitroot_relative (s : string) : Str.startswith "/" s = false -> splitroot s = ("", s).
Proof. unfold splitroot. intros ->. reflexivity. Qed.

(** [Path(a, b)] for a relative [b]: the components of [b] go under [a]. *)
Lemma parse_parts_two (a b : string) :
  Str.startswith "/" b = false ->
  parse_parts [a; b]
  = {| root := fst (splitroot a);
       parts := components (snd (splitroot a)) ++ components b |}.
Proof.
  intros Hb. cbn [parse_parts]. rewrite (splitroot_relative b Hb).
  cbn [root parts String.eqb negb]. rewrite app_nil_r.
  destruct (splitroot a) as [r rel]. reflexivity.
Qed.

Lemma root_child (data_dir name : string) :
  Str.startswith "/" name = false ->
  Path [PStr data_dir; PStr name]
  = {| root := fst (splitroot data_dir);
       parts := components (snd (splitroot data_dir)) ++ components name |}.
Proof. intros Hn. unfold Path. cbn [map fspath]. apply parse_parts_two. exact Hn. Qed.

Lemma output_dirs_are_not_derivatives (dd : string) :
  decoding_dir dd <> derivatives dd /\ mask_cache_dir dd <> derivatives dd
  /\ decoding_dir dd <> mask_cache_dir dd.
Proof.
  unfold decoding_dir, mask_cache_dir, derivatives.
  rewrite !root_child by reflexivity.
  repeat split; intros Heq; injection Heq as Heq; apply app_inv_head in Heq;
    discriminate Heq.
Qed.

Section DirectoryDiscipline.

Context `{Externals}.

Lemma before_directories_events data_dir resume verbose fs :
  exists out rest,
    events (before_directories data_dir resume verbose fs)
    = GetDatasetDir "hbnssi" data_dir 1 out :: rest
    /\ match out with
       | inl _ => rest = []
       | inr dd => Forall (download_event verbose dd) rest
       end.
Proof.
  unfold before_directories.
  match goal with |- context [bind _ ?f fs] => set (k := f) end.
  unfold bind, _get_dataset_dir.
  destruct (nilearn_get_dataset_dir "hbnssi" data_dir 1 fs) as [fs1 [e|dd]];
    cbn [result events fs_after app].
  - exists (inl e), []. auto.
  - eexists (inr dd), _. split; [reflexivity|]. subst k. cbn beta.
    apply bind_events_Forall; [apply participants_events|]. intros ps fs2.
    apply bind_events_Forall; [apply brain_mask_events|]. intros m fs3.
    apply bind_events_Forall; [apply functional_events|]. intros dv fs4.
    constructor.
Qed.

Lemma before_directories_no_mkdir data_dir resume verbose fs p parents exist_ok out :
  ~ In (Mkdir p parents exist_ok out) (events (before_directories data_dir resume verbose fs)).
Proof.
  destruct (before_directories_events data_dir resume verbose fs) as (o & rest & -> & Hrest).
  intros [Hin|Hin]; [discriminate Hin|].
  destruct o as [e|dd]; [subst rest; destruct Hin|].
  rewrite Forall_forall in Hrest. apply list_elem_of_In, Hrest in Hin. exact Hin.
Qed.

Lemma before_directories_fail_fast data_dir resume verbose fs :
  fail_fast (fun e => e = IndexError) (before_directories data_dir resume verbose fs).
Proof.
  unfold before_directories.
  apply fail_fast_bind; [apply fail_fast_get_dataset_dir|]. intros dd fs1.
  apply fail_fast_bind; [apply fail_fast_participants|]. intros ps fs2.
  apply fail_fast_bind; [apply fail_fast_brain_mask|]. intros m fs3.
  apply fail_fast_bind; [|intros; apply fail_fast_ret].
  eapply fail_fast_weaken; [|apply fail_fast_functional].
  intros e [He|[key Hkey]]; [exact He|].
  cbn [url_or_default] in Hkey. rewrite format_with_default_url in Hkey. discriminate Hkey.
Qed.

(** The events of the last statements. *)
Lemma make_directories_events dd ps m dv fs p parents exist_ok out :
  In (Mkdir p parents exist_ok out) (events (make_directories dd ps m dv fs)) ->
  parents = true /\ exist_ok = true
  /\ (p = decoding_dir dd
      \/ (p = mask_cache_dir dd
          /\ In (Mkdir (decoding_dir dd) true true (inr tt))
                (events (make_directories dd ps m dv fs)))).
Proof.
  unfold make_directories, bind, Path_mkdir, ret.
  fold (decoding_dir dd). fold (mask_cache_dir dd).
  destruct (posix.mkdir (decoding_dir dd) true true fs) as [fs1 [e|[]]];
    cbn [result events fs_after app In].
  - intros [Heq|[]]. injection Heq as <- <- <- <-. auto.
  - destruct (posix.mkdir (mask_cache_dir dd) true true fs1) as [fs2 [e|[]]];
      cbn [result events fs_after app In];
      (intros [Heq|[Heq|[]]]; injection Heq as <- <- <- <-; [auto|]);
      (split; [reflexivity|]); (split; [reflexivity|]); right; auto.
Qed.

End DirectoryDiscipline.

(** X4: the directories [fetch_hbnssi] creates.  A directory is created, or
    its creation attempted, only once the dataset directory, the registry,
    the mask and every artifact of every subject have been obtained: all the
    calls made until then returned.  The only directories concerned are
    [decoding] and then, if that went well, [mask_cache], both with
    [parents=True, exist_ok=True]; the function never creates [derivatives]
    itself, where the artifacts go. *)
Theorem directories_come_last `{Externals}
    (data_dir : option string) (resume : bool) (verbose : Z) (fs : FS)
    (p : PurePath) (parents exist_ok : bool) (out : Exn + unit) :
  let r := fetch_hbnssi data_dir resume verbose fs in
  let before := before_directories data_dir resume verbose fs in
  In (Mkdir p parents exist_ok out) (events r) ->
  exists dd ps m dv,
    result before = inr (dd, ps, m, dv)
    /\ Forall (fun ev => raised_by ev = None) (events before)
    /\ parents = true /\ exist_ok = true
    /\ (p = decoding_dir dd
        \/ (p = mask_cache_dir dd /\ In (Mkdir (decoding_dir dd) true true (inr tt)) (events r)))
    /\ p <> derivatives dd.
Proof.
  intros r before Hin. subst r. rewrite fetch_hbnssi_split in Hin |- *.
  pose proof (before_directories_fail_fast data_dir resume verbose fs) as Hff.
  pose proof (before_directories_no_mkdir data_dir resume verbose fs) as Hno.
  fold before in Hff, Hno. unfold fail_fast in Hff. unfold bind in Hin |- *. fold before in Hin |- *.
  destruct (result before) as [e|[[[dd ps] m] dv]] eqn:Hres; cbn [events] in Hin.
  - exfalso. exact (Hno _ _ _ _ Hin).
  - apply in_app_or in Hin as [Hin|Hin]; [exfalso; exact (Hno _ _ _ _ Hin)|].
    destruct (make_directories_events _ _ _ _ _ _ _ _ _ Hin) as (-> & -> & Hp).
    exists dd, ps, m, dv. split; [reflexivity|]. split; [exact Hff|].
    split; [reflexivity|]. split; [reflexivity|].
    destruct (output_dirs_are_not_derivatives dd) as (Hd1 & Hd2 & _).
    destruct Hp as [->|[-> Hdec]]; (split; [|assumption]).
    + left. reflexivity.
    + right. split; [reflexivity|]. cbn [events]. apply in_or_app. right. exact Hdec.
Qed.

Lemma directories_come_last_witness :
  let E := Scenario.externals [A001; A002] [Scenario.row "A001"; Scenario.row "A002"] [] in
  let r := @fetch_hbnssi E (Some "/data") true 1 ∅ in
  let before := @before_directories E (Some "/data") true 1 ∅ in
  In (Mkdir (mask_cache_dir "/data/hbnssi") true true (inr tt)) (events r)
  /\ exists dd ps m dv,
       result before = inr (dd, ps, m, dv)
       /\ Forall (fun ev => raised_by ev = None) (events before)
       /\ true = true /\ true = true
       /\ (mask_cache_dir "/data/hbnssi" = decoding_dir dd
           \/ (mask_cache_dir "/data/hbnssi" = mask_cache_dir dd
               /\ In (Mkdir (decoding_dir dd) true true (inr tt)) (events r)))
       /\ mask_cache_dir "/data/hbnssi" <> derivatives dd.
Proof.
  intros E r before.
  assert (Hin : In (Mkdir (mask_cache_dir "/data/hbnssi") true true (inr tt)) (events r)).
  { apply (nth_error_In _ 14). vm_compute. reflexivity. }
  split; [exact Hin|].
  exact (@directories_come_last E (Some "/data") true 1 ∅ _ _ _ _ Hin).
Defined.

(** ** Where the artifacts land *)

Lemma split_nonempty c (s : string) : Str.split c s <> [].
Proof.
  destruct s as [|x s]; simpl; [discriminate|].
  destruct (Ascii.eqb x c); [discriminate|]. destruct (Str.split c s); discriminate.
Qed.

(** [(a + sep + b).split(sep) = a.split(sep) + b.split(sep)]. *)
Lemma split_sep_app c (a b : string) :
  Str.split c (a +:+ String c b) = Str.split c a ++ Str.split c b.
Proof.
  induction a as [|x a IH]; simpl.
  - rewrite Ascii.eqb_refl. reflexivity.
  - rewrite IH. destruct (Ascii.eqb x c); [reflexivity|].
    pose proof (split_nonempty c a) as Hne.
    destruct (Str.split c a) as [|y ys]; [contradiction|reflexivity].
Qed.

Lemma split_pieces c (s : string) :
  Forall (fun x => Str.contains c x = false) (Str.split c s).
Proof.
  induction s as [|x s IH]; simpl; [repeat constructor|].
  destruct (Ascii.eqb x c) eqn:Hx; [constructor; [reflexivity|exact IH]|].
  destruct (Str.split c s) as [|y ys]; [repeat constructor; simpl; rewrite Hx; reflexivity|].
  inversion IH as [|? ? Hy Hys]; subst. constructor; [|exact Hys].
  simpl. rewrite Hx, Hy. reflexivity.
Qed.

Lemma split_join c (ps : list string) :
  ps <> [] -> Forall (fun x => Str.contains c x = false) ps ->
  Str.split c (Str.join (String c "") ps) = ps.
Proof.
  induction ps as [|x ps IH]; [contradiction|]. intros _ Hps.
  inversion Hps as [|? ? Hx Hrest]; subst.
  destruct ps as [|y ps]; [apply split_without_separator; exact Hx|].
  change (Str.join (String c "") (x :: y :: ps))
    with (x +:+ String c (Str.join (String c "") (y :: ps))).
  rewrite split_sep_app, (split_without_separator c x Hx), IH; [reflexivity|discriminate|exact Hrest].
Qed.

Lemma filter_all {A} (f : A -> bool) (l : list A) :
  Forall (fun x => f x = true) l -> List.filter f l = l.
Proof.
  induction 1 as [|x l Hx _ IH]; simpl; [reflexivity|]. rewrite Hx, IH. reflexivity.
Qed.

Lemma lstrip_nothing c (s : string) : Str.startswith c s = false -> Str.lstrip c s = (0, s).
Proof. destruct s as [|x s]; simpl; [reflexivity|]. intros ->. reflexivity. Qed.

Lemma join_relative (ps : list string) :
  Forall (fun x => kept x = true /\ Str.contains "/" x = false) ps ->
  Str.startswith "/" (Str.join "/" ps) = false.
Proof.
  intros Hps. destruct ps as [|x ps]; [reflexivity|].
  inversion Hps as [|? ? [Hk Hx] _]; subst.
  destruct x as [|a x]; [discriminate Hk|].
  simpl in Hx. apply orb_false_elim in Hx as [Ha _].
  destruct ps; simpl; exact Ha.
Qed.

Lemma components_join (ps : list string) :
  Forall (fun x => kept x = true /\ Str.contains "/" x = false) ps ->
  components (Str.join "/" ps) = ps.
Proof.
  intros Hps. destruct ps as [|x ps]; [reflexivity|].
  unfold components. rewrite split_join.
  - apply filter_all. eapply Forall_impl; [exact Hps|]. intros y [Hy _]. exact Hy.
  - discriminate.
  - eapply Forall_impl; [exact Hps|]. intros y [_ Hy]. exact Hy.
Qed.

Lemma splitroot_root (s : string) :
  fst (splitroot s) = "" \/ fst (splitroot s) = "/" \/ fst (splitroot s) = "//".
Proof.
  unfold splitroot. destruct (Str.startswith "/" s); [|auto].
  destruct (Str.lstrip "/" s) as [n t]. destruct (n =? 2)%nat; auto.
Qed.

Lemma components_kept (rel : string) :
  Forall (fun x => kept x = true /\ Str.contains "/" x = false) (components rel).
Proof.
  unfold components. pose proof (split_pieces "/" rel) as Hp.
  induction Hp as [|x l Hx _ IH]; simpl; [constructor|].
  destruct (kept x) eqn:Hk; [constructor; [split; assumption|exact IH]|exact IH].
Qed.

(** Every path the constructor builds is normalised. *)
Lemma parse_parts_normalised (args : list string) : normalised (parse_parts args).
Proof.
  induction args as [|a args IH]; [split; [auto|constructor]|].
  cbn [parse_parts]. destruct (negb (root (parse_parts args) =? "")%string); [exact IH|].
  pose proof (splitroot_root a) as Hr. pose proof (components_kept (snd (splitroot a))) as Hc.
  destruct (splitroot a) as [r rel]. split; [exact Hr|].
  cbn [parts]. apply Forall_app. split; [exact Hc|exact (proj2 IH)].
Qed.

Lemma splitroot_one (j : string) :
  Str.startswith "/" j = false -> splitroot ("/" +:+ j) = ("/", j).
Proof.
  intros Hj. change ("/" +:+ j) with (String "/" j).
  unfold splitroot. simpl. rewrite (lstrip_nothing _ _ Hj). reflexivity.
Qed.

Lemma splitroot_two (j : string) :
  Str.startswith "/" j = false -> splitroot ("//" +:+ j) = ("//", j).
Proof.
  intros Hj. change ("//" +:+ j) with (String "/" (String "/" j)).
  unfold splitroot. simpl. rewrite (lstrip_nothing _ _ Hj). reflexivity.
Qed.

(** [Path(str(p)) == p]. *)
Lemma parse_str (p : PurePath) : normalised p -> parse_parts [str p] = p.
Proof.
  destruct p as [r ps]. intros [Hr Hps]. cbn [root parts] in Hr, Hps.
  pose proof (join_relative ps Hps) as Hrel. pose proof (components_join ps Hps) as Hcomp.
  cbn [parse_parts root parts String.eqb negb]. unfold str. cbn [root parts].
  destruct Hr as [->|[->| ->]].
  - destruct ps as [|x ps]; [reflexivity|].
    change ("" +:+ Str.join "/" (x :: ps)) with (Str.join "/" (x :: ps)).
    rewrite (splitroot_relative _ Hrel), Hcomp, app_nil_r. reflexivity.
  - rewrite (splitroot_one _ Hrel), Hcomp, app_nil_r. reflexivity.
  - rewrite (splitroot_two _ Hrel), Hcomp, app_nil_r. reflexivity.
Qed.

(** [Path(p, name)] for a path [p] and a relative [name]. *)
Lemma path_child (p : PurePath) (name : string) :
  normalised p -> Str.startswith "/" name = false ->
  Path [PPath p; PStr name] = {| root := root p; parts := parts p ++ components name |}.
Proof.
  intros Hp Hname. unfold Path. cbn [map fspath]. rewrite parse_parts_two by exact Hname.
  pose proof (parse_str p Hp) as Hrt. cbn [parse_parts root parts String.eqb negb] in Hrt.
  destruct (splitroot (str p)) as [r rel]. cbn [fst snd].
  rewrite app_nil_r in Hrt. rewrite <- Hrt. reflexivity.
Qed.

Lemma derivatives_normalised (data_dir : string) : normalised (derivatives data_dir).
Proof. apply parse_parts_normalised. Qed.

Lemma derive_child (data_dir : string) (k : Kind) (sid : string) :
  derive data_dir k sid
  = {| root := root (derivatives data_dir);
       parts := parts (derivatives data_dir) ++ components (filename k sid) |}.
Proof. unfold derive. apply path_child; [apply derivatives_normalised|reflexivity]. Qed.

(** The last separator of a string that has one. *)
Lemma last_separator c (s : string) :
  Str.contains c s = true ->
  exists a b, s = a +:+ String c b /\ Str.contains c b = false.
Proof.
  induction s as [|x s IH]; simpl; [discriminate|].
  destruct (Str.contains c s) eqn:Hs.
  - intros _. destruct (IH eq_refl) as (a & b & -> & Hb). exists (String x a), b. auto.
  - rewrite orb_false_r. intros Hx. apply Ascii.eqb_eq in Hx as ->. exists "", s. auto.
Qed.

Lemma split_head c x (s : string) :
  Ascii.eqb x c = false -> exists y ys, Str.split c (String x s) = String x y :: ys.
Proof.
  intros Hx. simpl. rewrite Hx. destruct (Str.split c s) as [|y ys]; eauto.
Qed.

(** An id with a separator makes a file name of two components or more. *)
Lemma filename_with_separator (k : Kind) (sid : string) :
  Str.contains "/" sid = true ->
  exists x y rest, components (filename k sid) = x :: y :: rest.
Proof.
  intros Hsid. destruct (last_separator "/" sid Hsid) as (a & b & -> & Hb).
  unfold filename, components.
  replace ("sub-" +:+ (a +:+ String "/" b) +:+ suffix k)
    with (("sub-" +:+ a) +:+ String "/" (b +:+ suffix k)).
  2:{ apply chars_inj. rewrite !chars_app. cbn [list_ascii_of_string].
      rewrite !chars_app. rewrite <- !app_assoc. reflexivity. }
  rewrite split_sep_app, List.filter_app.
  destruct (split_head "/" "s" ("ub-" +:+ a) eq_refl) as (y & ys & Hy).
  change ("sub-" +:+ a) with (String "s" ("ub-" +:+ a)). rewrite Hy.
  rewrite (split_without_separator "/" (b +:+ suffix k)).
  2:{ rewrite contains_app, Hb. destruct k; reflexivity. }
  assert (Hlast : kept (b +:+ suffix k) = true).
  { destruct b as [|c1 [|c2 b]].
    - destruct k; reflexivity.
    - change (String c1 "" +:+ suffix k) with (String c1 (suffix k)).
      destruct k; unfold kept; simpl; destruct (Ascii.eqb c1 "."); reflexivity.
    - change (String c1 (String c2 b) +:+ suffix k)
        with (String c1 (String c2 (b +:+ suffix k))).
      unfold kept; simpl; destruct (Ascii.eqb c1 "."); reflexivity. }
  cbn [List.filter]. rewrite Hlast.
  change (kept (String "s" y)) with true. cbn match.
  destruct (List.filter kept ys) as [|z zs]; cbn [app]; eauto.
Qed.

(** X5: an artifact lands directly inside [derivatives] exactly when the
    subject id holds no path separator.  The target of a download block is
    [Path(derivatives_dir, template.format(sid))]: for an id without [/] it
    is the file [sub-<id><suffix>] in [derivatives]; an id with a separator
    puts it in another directory (below [derivatives], or, with [..]
    components, anywhere). *)
Theorem artifact_directly_in_derivatives (data_dir : string) (k : Kind) (sid : string) :
  parent (derive data_dir k sid) = derivatives data_dir
  <-> Str.contains "/" sid = false.
Proof.
  rewrite derive_child. unfold parent. cbn [root parts]. split.
  - intros Hparent. destruct (Str.contains "/" sid) eqn:Hsid; [exfalso|reflexivity].
    destruct (filename_with_separator k sid Hsid) as (x & y & rest & Hc).
    rewrite Hc in Hparent. apply (f_equal parts) in Hparent. cbn [parts] in Hparent.
    apply (f_equal (@length string)) in Hparent.
    assert (Hlen : forall l : list string, l <> [] -> S (length (removelast l)) = length l).
    { intros l Hl. destruct (exists_last Hl) as (l' & z & ->).
      rewrite removelast_last, length_app. simpl. lia. }
    specialize (Hlen (parts (derivatives data_dir) ++ x :: y :: rest)).
    rewrite Hparent, length_app in Hlen. simpl in Hlen.
    assert (Hne : parts (derivatives data_dir) ++ x :: y :: rest <> [])
      by (destruct (parts (derivatives data_dir)); discriminate).
    specialize (Hlen Hne). lia.
  - intros Hsid. rewrite (filename_components k sid Hsid), removelast_last.
    destruct (derivatives data_dir). reflexivity.
Qed.

(** An id that climbs out of [derivatives]. *)
Example separator_in_id_leaves_derivatives :
  derive "/data/hbnssi" Condition "x/../../../../etc/passwd"
  = {| root := "/";
       parts := ["data"; "hbnssi"; "derivatives"; "sub-x"; ".."; ".."; ".."; "..";
                 "etc"; "passwd_labels.csv"] |}.
Proof. vm_compute. reflexivity. Qed.

(** ** Fetching a registry in two batches *)

Section Batches.

Context `{Externals}.

(** The lists the loop appends to have no influence on what the loop does. *)
Lemma loop_body_acc osf_data data_dir dv url resume verbose sid acc1 acc2 fs :
  let r1 := loop_body osf_data data_dir dv url resume verbose sid acc1 fs in
  let r2 := loop_body osf_data data_dir dv url resume verbose sid acc2 fs in
  fs_after r1 = fs_after r2 /\ events r1 = events r2 /\ err (result r1) = err (result r2).
Proof.
  unfold loop_body, bind, ret.
  destruct (download osf_raiders _ _ _ _ _ _ _ _ fs) as [fs1 ev1 [e|p1]];
    cbn [result events fs_after err]; [auto|].
  destruct (download osf_flanker _ _ _ _ _ _ _ _ fs1) as [fs2 ev2 [e|p2]];
    cbn [result events fs_after err]; [auto|].
  destruct (download osf_condition _ _ _ _ _ _ _ _ fs2) as [fs3 ev3 [e|p3]];
    cbn [result events fs_after err]; [auto|].
  destruct (download osf_run _ _ _ _ _ _ _ _ fs3) as [fs4 ev4 [e|p4]];
    cbn [result events fs_after err]; auto.
Qed.

Lemma for_sid_acc osf_data data_dir dv url resume verbose sids acc1 acc2 fs :
  let body := loop_body osf_data data_dir dv url resume verbose in
  let r1 := for_sid sids body acc1 fs in
  let r2 := for_sid sids body acc2 fs in
  fs_after r1 = fs_after r2 /\ events r1 = events r2 /\ err (result r1) = err (result r2).
Proof.
  cbv zeta. revert acc1 acc2 fs.
  induction sids as [|sid sids IH]; intros acc1 acc2 fs; cbn [for_sid].
  - unfold ret. cbn. auto.
  - pose proof (loop_body_acc osf_data data_dir dv url resume verbose sid acc1 acc2 fs)
      as (Hfs & Hev & Herr).
    cbv zeta in Hfs, Hev, Herr. unfold bind.
    destruct (result (loop_body _ _ _ _ _ _ sid acc1 fs)) as [e1|a1],
             (result (loop_body _ _ _ _ _ _ sid acc2 fs)) as [e2|a2];
      cbn [err] in Herr; try discriminate Herr; cbn [result events fs_after err].
    + auto.
    + rewrite Hfs, Hev. destruct (IH a1 a2 (fs_after (loop_body osf_data data_dir dv url
                                                        resume verbose sid acc2 fs)))
        as (Hfs' & Hev' & Herr').
      rewrite Hfs', Hev', Herr'. auto.
Qed.

End Batches.

(** X6: fetching a registry in two batches.  When the lookup table reads the
    same after the first batch, [_fetch_hbnssi_functional] on [pre ++ post]
    does what it does on [pre] and then, from the state that run left, on
    [post], the table being read once instead of twice: the same requests in
    the same order, the same final state, the same outcome.  When the first
    batch raises, the whole run is that run. *)
Theorem functional_in_batches `{Externals}
    (pre post : list ParticipantRecord) (data_dir : string) (url : option string)
    (resume : bool) (verbose : Z) (fs : FS) :
  let whole := _fetch_hbnssi_functional (pre ++ post) data_dir url resume verbose fs in
  let first := _fetch_hbnssi_functional pre data_dir url resume verbose fs in
  let second := _fetch_hbnssi_functional post data_dir url resume verbose (fs_after first) in
  csv_osf lookup_path (fs_after first) = csv_osf lookup_path fs ->
  match result first with
  | inl _ => whole = first
  | inr _ =>
      fs_after whole = fs_after second
      /\ events whole = events first ++ tail (events second)
      /\ result whole = result second
  end.
Proof.
  cbv zeta. rewrite !functional_run, map_app.
  destruct (csv_osf lookup_path fs) as [e|osf_data] eqn:Hcsv; cbn [result fs_after events].
  - intros _. reflexivity.
  - rewrite for_sid_app.
    set (body := loop_body osf_data data_dir (derivatives data_dir) (url_or_default url)
                           resume verbose).
    unfold bind.
    destruct (for_sid (map p_sid pre) body nothing_collected fs) as [fs1 ev1 [e|acc]];
      cbn [result events fs_after].
    + intros _. reflexivity.
    + intros ->. cbn [result events fs_after tail].
      destruct (for_sid_acc osf_data data_dir (derivatives data_dir) (url_or_default url)
                  resume verbose (map p_sid post) acc nothing_collected fs1)
        as (Hfs & Hev & Herr).
      subst body. rewrite Hfs, Hev. split; [reflexivity|]. split; [reflexivity|].
      destruct (result (for_sid (map p_sid post) _ acc fs1)),
               (result (for_sid (map p_sid post) _ nothing_collected fs1));
        cbn [err] in Herr; congruence.
Qed.

Lemma functional_in_batches_witness :
  let E := Scenario.externals [A001; A002] [Scenario.row "A001"; Scenario.row "A002"] [] in
  let whole := @_fetch_hbnssi_functional E ([A001] ++ [A002]) "/data/hbnssi" None true 1 ∅ in
  let first := @_fetch_hbnssi_functional E [A001] "/data/hbnssi" None true 1 ∅ in
  let second := @_fetch_hbnssi_functional E [A002] "/data/hbnssi" None true 1 (fs_after first) in
  @csv_osf E lookup_path (fs_after first) = @csv_osf E lookup_path ∅
  /\ match result first with
     | inl _ => whole = first
     | inr _ =>
         fs_after whole = fs_after second
         /\ events whole = events first ++ tail (events second)
         /\ result whole = result second
     end.
Proof.
  intros E whole first second.
  assert (Hcsv : @csv_osf E lookup_path (fs_after first) = @csv_osf E lookup_path ∅)
    by (unfold E; cbn [csv_osf Scenario.externals]; reflexivity).
  split; [exact Hcsv|].
  exact (@functional_in_batches E [A001] [A002] "/data/hbnssi" None true 1 ∅ Hcsv).
Defined.

(** ** What the last statements leave alone *)

Lemma created_within_refl paths fs : created_within paths fs fs.
Proof. intros q. left. reflexivity. Qed.

Lemma created_within_weaken paths paths' fs fs' :
  (forall q, In q paths -> In q paths') ->
  created_within paths fs fs' -> created_within paths' fs fs'.
Proof. intros Hincl Hc q. destruct (Hc q) as [Hq|(H1 & H2 & H3)]; auto. Qed.

Lemma created_within_trans paths fs1 fs2 fs3 :
  created_within paths fs1 fs2 -> created_within paths fs2 fs3 ->
  created_within paths fs1 fs3.
Proof.
  intros H12 H23 q. destruct (H12 q) as [H1|(H1 & H1' & Hin)], (H23 q) as [H2|(H2 & H2' & Hin')].
  - left. congruence.
  - right. split; [congruence|]. split; [congruence|assumption].
  - right. split; [congruence|]. split; [congruence|assumption].
  - congruence.
Qed.

Lemma created_within_insert paths fs p :
  fs !! p = None -> In p paths -> created_within paths fs (<[p := Dir]> fs).
Proof.
  intros Hp Hin q. destruct (decide (p = q)) as [<-|Hne].
  - right. rewrite lookup_insert_eq. auto.
  - left. apply lookup_insert_ne. exact Hne.
Qed.

Lemma os_mkdir_frame paths p fs :
  In p paths -> created_within paths fs (fst (posix.os_mkdir p fs)).
Proof.
  intros Hin. unfold posix.os_mkdir.
  destruct (posix.node_at fs p) as [n|] eqn:Hp; [apply created_within_refl|].
  destruct (posix.node_at fs (parent p)) as [[|]|]; cbn [fst];
    try apply created_within_refl.
  apply created_within_insert; [|exact Hin].
  unfold posix.node_at in Hp. destruct (parts p); [discriminate Hp|exact Hp].
Qed.

Lemma mkdir_here_frame paths p exist_ok fs :
  In p paths -> created_within paths fs (fst (posix.mkdir_here p exist_ok fs)).
Proof.
  intros Hin. unfold posix.mkdir_here.
  pose proof (os_mkdir_frame paths p fs Hin) as Hos.
  destruct (posix.os_mkdir p fs) as [fs' [e|[]]]; cbn [fst] in *; [|exact Hos].
  destruct e; try (destruct (exist_ok && posix.is_dir fs p)); apply created_within_refl.
Qed.

(** [Path.mkdir] changes no entry that exists and adds directories only,
    each of them the path or one of the directories above it. *)
Lemma mkdir_from_frame r up parents exist_ok fs :
  created_within (lineage r up) fs (fst (posix.mkdir_from r up parents exist_ok fs)).
Proof.
  revert parents exist_ok fs. induction up as [|x up IH]; intros parents exist_ok fs.
  - cbn [posix.mkdir_from]. unfold posix.os_mkdir. rewrite node_at_top.
    destruct (exist_ok && posix.is_dir fs _); apply created_within_refl.
  - change (posix.mkdir_from r (x :: up) parents exist_ok fs)
      with (let p := {| root := r; parts := rev (x :: up) |} in
            match posix.os_mkdir p fs with
            | (fs', inr _) => (fs', inr tt)
            | (_, inl FileNotFoundError) =>
                if parents then
                  match posix.mkdir_from r up true true fs with
                  | (fs1, inr _) => posix.mkdir_here p exist_ok fs1
                  | (fs1, inl e) => (fs1, inl e)
                  end
                else (fs, inl FileNotFoundError)
            | (_, inl e) => if exist_ok && posix.is_dir fs p then (fs, inr tt) else (fs, inl e)
            end).
    set (p := {| root := r; parts := rev (x :: up) |}). cbn zeta.
    assert (Hself : In p (lineage r (x :: up))) by (left; reflexivity).
    assert (Hup : forall q, In q (lineage r up) -> In q (lineage r (x :: up)))
      by (intros q Hq; right; exact Hq).
    pose proof (os_mkdir_frame _ p fs Hself) as Hos.
    destruct (posix.os_mkdir p fs) as [fs' [e|[]]]; cbn [fst] in *; [|exact Hos].
    destruct e; try (destruct (exist_ok && posix.is_dir fs p); apply created_within_refl).
    destruct parents; [|apply created_within_refl].
    pose proof (IH true true fs) as Hrec.
    destruct (posix.mkdir_from r up true true fs) as [fs1 [e|[]]]; cbn [fst] in *.
    + eapply created_within_weaken; [exact Hup|exact Hrec].
    + eapply created_within_trans.
      * eapply created_within_weaken; [exact Hup|exact Hrec].
      * apply mkdir_here_frame. exact Hself.
Qed.

Lemma mkdir_frame p parents exist_ok fs :
  created_within (ancestors_or_self p) fs (fst (posix.mkdir p parents exist_ok fs)).
Proof. apply mkdir_from_frame. Qed.

Section Frame.

Context `{Externals}.

Lemma make_directories_frame dd ps m dv fs :
  created_within (ancestors_or_self (decoding_dir dd) ++ ancestors_or_self (mask_cache_dir dd))
                 fs (fs_after (make_directories dd ps m dv fs)).
Proof.
  unfold make_directories, bind, Path_mkdir, ret.
  fold (decoding_dir dd). fold (mask_cache_dir dd).
  pose proof (mkdir_frame (decoding_dir dd) true true fs) as H1.
  destruct (posix.mkdir (decoding_dir dd) true true fs) as [fs1 [e|[]]];
    cbn [result events fs_after fst] in *.
  - eapply created_within_weaken; [|exact H1]. intros q Hq. apply in_or_app. auto.
  - pose proof (mkdir_frame (mask_cache_dir dd) true true fs1) as H2.
    destruct (posix.mkdir (mask_cache_dir dd) true true fs1) as [fs2 [e|[]]];
      cbn [result events fs_after fst] in *;
      (eapply created_within_trans;
       [eapply created_within_weaken; [|exact H1]; intros q Hq; apply in_or_app; auto
       |eapply created_within_weaken; [|exact H2]; intros q Hq; apply in_or_app; auto]).
Qed.

End Frame.

(** X7: what the statements of [fetch_hbnssi] after the downloads leave
    alone.  Whatever the file system holds once the downloads are over, and
    whether the calls return or raise, the two [mkdir] calls change no entry
    that exists, remove none and create no file: every entry that differs at
    the end is a new directory, which is [decoding], [mask_cache] or a
    directory above one of them. *)
Theorem assembler_only_adds_directories `{Externals}
    (data_dir : option string) (resume : bool) (verbose : Z) (fs : FS) (q : PurePath) :
  let r := fetch_hbnssi data_dir resume verbose fs in
  let before := before_directories data_dir resume verbose fs in
  fs_after r !! q = fs_after before !! q
  \/ (fs_after before !! q = None /\ fs_after r !! q = Some Dir
      /\ exists dd ps m dv,
           result before = inr (dd, ps, m, dv)
           /\ (In q (ancestors_or_self (decoding_dir dd))
               \/ In q (ancestors_or_self (mask_cache_dir dd)))).
Proof.
  cbv zeta. rewrite fetch_hbnssi_split. unfold bind.
  destruct (result (before_directories data_dir resume verbose fs))
    as [e|[[[dd ps] m] dv]]; cbn [fs_after]; [left; reflexivity|].
  destruct (make_directories_frame dd ps m dv
              (fs_after (before_directories data_dir resume verbose fs)) q)
    as [Hq|(Hq & Hq' & Hin)]; [left; exact Hq|].
  right. split; [exact Hq|]. split; [exact Hq'|].
  exists dd, ps, m, dv. split; [reflexivity|]. apply in_app_or. exact Hin.
Qed.

(** ** The URL override of the loop, and the lookup table *)

(** A template without braces is its own expansion. *)
Lemma format_plain (u arg : string) (st : Str.Numbering) :
  Str.contains "{" u = false -> Str.contains "}" u = false ->
  Str.format_from u Str.Text st arg = inr u.
Proof.
  induction u as [|c u IH]; [reflexivity|]. cbn [Str.contains Str.format_from].
  intros Ho Hc. apply orb_false_elim in Ho as [Ho Hu], Hc as [Hc Hu'].
  rewrite Ho, Hc, (IH Hu Hu'). reflexivity.
Qed.

Lemma Issued_fetches osf_data data_dir url verbose steps evs res :
  Issued osf_data data_dir url verbose steps evs res ->
  Forall (fun ev => exists c out, ev = FetchFiles c out) evs.
Proof. induction 1; repeat constructor; eauto. Qed.

(** X8: a URL override without a replacement field.  [url] is used as a
    template, [url.format(key)]; an override that holds no brace expands to
    itself whatever the key, so every artifact of every subject is requested
    from that one location. *)
Theorem override_without_field_is_one_url `{Externals}
    (participants : list ParticipantRecord) (data_dir u : string)
    (resume : bool) (verbose : Z) (fs : FS) :
  Str.contains "{" u = false -> Str.contains "}" u = false ->
  Forall (fun c => Forall (fun f => file_url f = u) (fc_files c))
         (fetch_calls (events (_fetch_hbnssi_functional participants data_dir (Some u)
                                 resume verbose fs))).
Proof.
  intros Ho Hc.
  destruct (functional_calls participants data_dir (Some u) resume verbose fs)
    as (osf_data & n & _ & Hall & _).
  cbn [url_or_default] in Hall.
  induction Hall as [|c a calls steps Hprep _ IH]; constructor; [|exact IH].
  apply prepared_inv in Hprep as (key & u' & _ & Hu & ->).
  unfold Str.format in Hu. rewrite (format_plain u key _ Ho Hc) in Hu. injection Hu as <-.
  repeat constructor.
Qed.

Lemma override_without_field_is_one_url_witness :
  let E := Scenario.externals [A001; A002] [Scenario.row "A001"; Scenario.row "A002"] [] in
  let u := "https://osf.io/download/abcde/" in
  Str.contains "{" u = false /\ Str.contains "}" u = false
  /\ Forall (fun c => Forall (fun f => file_url f = u) (fc_files c))
            (fetch_calls (events (@_fetch_hbnssi_functional E [A001; A002] "/data/hbnssi"
                                    (Some u) true 1 ∅))).
Proof.
  intros E u. split; [reflexivity|]. split; [reflexivity|].
  exact (@override_without_field_is_one_url E [A001; A002] "/data/hbnssi" u true 1 ∅
           eq_refl eq_refl).
Defined.

(** X9: the lookup table is read once per call, first, from the package
    directory.  Every later call of the run is a retrieval request; when
    reading the table raises, that exception is the outcome, nothing is
    requested and the file system is as it was; with an empty registry the
    table is read all the same and nothing else happens. *)
Theorem table_is_read_once_and_first `{Externals}
    (participants : list ParticipantRecord) (data_dir : string) (url : option string)
    (resume : bool) (verbose : Z) (fs : FS) :
  let r := _fetch_hbnssi_functional participants data_dir url resume verbose fs in
  exists rest,
    events r = CsvOsf (os_path.join package_directory "hbnssi.csv") (csv_osf lookup_path fs)
               :: rest
    /\ Forall (fun ev => exists c out, ev = FetchFiles c out) rest
    /\ (forall e, csv_osf lookup_path fs = inl e ->
                  rest = [] /\ result r = inl e /\ fs_after r = fs)
    /\ (participants = [] ->
        rest = [] /\ fs_after r = fs
        /\ result r = match csv_osf lookup_path fs with
                      | inl e => inl e
                      | inr _ => inr (Path [PStr data_dir; PStr "derivatives"])
                      end).
Proof.
  intros r. fold lookup_path.
  pose proof (functional_Issued participants data_dir url resume verbose fs) as HI.
  cbv zeta in HI. fold r in HI.
  pose proof (functional_run participants data_dir url resume verbose fs) as Hrun.
  fold r in Hrun.
  destruct (csv_osf lookup_path fs) as [e|osf_data].
  - exists []. rewrite HI. cbn [events result fs_after].
    split; [reflexivity|]. split; [constructor|]. split.
    + intros e' [= <-]. auto.
    + intros _. auto.
  - destruct HI as (evs & Hev & HIss). exists evs. split; [exact Hev|].
    split; [exact (Issued_fetches _ _ _ _ _ _ _ HIss)|]. split; [intros e He; discriminate He|].
    intros ->. cbn in HIss. inversion HIss; subst.
    rewrite Hrun. cbn. auto.
Qed.

(** ** The onsets and the file names of [generate_events.py] *)

Section GenerateEvents.

Import generate_events.













End GenerateEvents.

(** ** The [resume] parameter *)

(** X13: [resume] changes nothing.  Two calls of [fetch_hbnssi] that differ
    in [resume] alone make the same calls in the same order, leave the same
    file system and end with the same result or exception: the parameter is
    handed down to [_fetch_hbnssi_functional] and used by no statement. *)
Theorem resume_changes_nothing `{Externals}
    (data_dir : option string) (resume resume' : bool) (verbose : Z) (fs : FS) :
  fetch_hbnssi data_dir resume verbose fs = fetch_hbnssi data_dir resume' verbose fs
  /\ forall participants root url,
       _fetch_hbnssi_functional participants root url resume verbose fs
       = _fetch_hbnssi_functional participants root url resume' verbose fs.
Proof.
  assert (Hbody : forall osf_data root dv url sid acc fs',
             loop_body osf_data root dv url resume verbose sid acc fs'
             = loop_body osf_data root dv url resume' verbose sid acc fs')
    by reflexivity.
  assert (Hloop : forall osf_data root dv url sids acc fs',
             for_sid sids (loop_body osf_data root dv url resume verbose) acc fs'
             = for_sid sids (loop_body osf_data root dv url resume' verbose) acc fs').
  { intros osf_data root dv url sids. induction sids as [|sid sids IH]; intros acc fs';
      cbn [for_sid]; [reflexivity|].
    apply bind_cong; [apply Hbody|exact IH]. }
  assert (Hfun : forall participants root url fs',
             _fetch_hbnssi_functional participants root url resume verbose fs'
             = _fetch_hbnssi_functional participants root url resume' verbose fs').
  { intros participants root url fs'. rewrite !functional_run.
    destruct (csv_osf lookup_path fs'); [reflexivity|]. cbv zeta. rewrite Hloop. reflexivity. }
  split; [|intros; apply Hfun].
  unfold fetch_hbnssi. cbv zeta.
  apply bind_ext. intros dd fs1. apply bind_ext. intros ps fs2.
  apply bind_ext. intros m fs3. apply bind_cong; [apply Hfun|reflexivity].
Qed.

(** ** The two helpers that fetch one file *)

(** X14: the registry loader and the mask helper.  Each makes exactly one
    request, for its one file, from the URL override when there is one, sent
    as it is (no key is substituted into it), and from its fixed location
    otherwise.  Of the paths the request returns only the first is used: the
    registry is parsed from it, in the state the request left, and is
    returned as parsed; the mask helper returns it without a look at the
    file.  When the request raises or returns no path, nothing is parsed. *)
Theorem helpers_use_the_first_path `{Externals}
    (data_dir : string) (url : option string) (verbose : Z) (fs : FS) :
  (let c := one_file_request "participants.csv"
              (default "https://osf.io/wtvh3/download" url) data_dir verbose in
   let answer := nilearn_fetch_files c fs in
   let r := _fetch_hbnssi_participants data_dir url verbose fs in
   fs_after r = fst answer
   /\ match snd answer with
      | inl e => events r = [FetchFiles c (inl e)] /\ result r = inl e
      | inr [] => events r = [FetchFiles c (inr [])] /\ result r = inl IndexError
      | inr (path :: others) =>
          events r = [FetchFiles c (inr (path :: others));
                      CsvParticipants path (csv_participants path (fst answer))]
          /\ result r = csv_participants path (fst answer)
      end)
  /\ (let c := one_file_request target_fname
                 (default "https://osf.io/kp6m9/download" url) data_dir verbose in
      let answer := nilearn_fetch_files c fs in
      let r := _fetch_hbnssi_brain_mask data_dir url verbose fs in
      fs_after r = fst answer
      /\ events r = [FetchFiles c (snd answer)]
      /\ result r = match snd answer with
                    | inl e => inl e
                    | inr paths => getitem0 paths
                    end).
Proof.
  split; cbv zeta.
  - unfold _fetch_hbnssi_participants, bind, _fetch_files, lift, csv_to_array_participants,
      ret, one_file_request.
    destruct url as [u|]; cbn [default];
      destruct (nilearn_fetch_files _ fs) as [fs1 [e|[|path others]]];
      cbn [result events fs_after fst snd getitem0 app];
      try (split; [reflexivity|split; reflexivity]);
      destruct (csv_participants path fs1); cbn [result events fs_after app];
      (split; [reflexivity|split; reflexivity]).
  - unfold _fetch_hbnssi_brain_mask, bind, _fetch_files, lift, ret, one_file_request.
    destruct url as [u|]; cbn [default];
      destruct (nilearn_fetch_files _ fs) as [fs1 [e|paths]];
      cbn [result events fs_after fst snd app];
      try (split; [reflexivity|split; reflexivity]);
      destruct (getitem0 paths); cbn [result events fs_after app];
      (split; [reflexivity|split; reflexivity]).
Qed.
